(** * SWORDXplorer: a shallow embedding of the Streamlit script

    The script [SWORDXplorer.py] loads a shapefile bundle into the session,
    filters its rows into a list of reach identifiers, fetches one time
    series per identifier from the Hydrocron endpoint and merges the tables.

    The embedding comes first:
    - [Py]      Python strings as lists of code points, [str.isalnum],
                [str.endswith], [int(str)], [os.path.join];
    - [Frame]   the part of pandas the script uses: cells, tables, row
                selection, [dropna], [astype(str)], [pd.concat];
    - [Names]   the sanitised filter value and the paths built on it;
    - [Loader]  the upload block (session state, identity key, parse);
    - [Fetch]   the "Process Data" block: the fetch loop with its
                try / except / finally in a state and exception monad,
                and the combined table;
    - [Cleanup] [robust_rmtree];
    - [Widgets] the values offered by the filter widgets and the test of
                line 145 that leads into the block.

    Everything outside the script (the HTTP server, the clocks, the CSV,
    date and shapefile parsers, the file system, the dtype pandas gives a
    column, the Unicode database) is a field of a record ([Fetch.World],
    [Loader.Host]) or a parameter of the definitions, so that each
    definition computes once these are given. The library calls are
    those of CPython 3.11 on Linux.
    The properties follow, module by module. *)

From Stdlib Require Import List Bool Arith ZArith NArith QArith Qround Lia Lqa.
From Stdlib Require Import String Ascii DecimalString.
Import ListNotations.

Set Implicit Arguments.

(* ------------------------------------------------------------------ *)
(** ** Python strings *)

Module Py.

(** A Python [str] is a sequence of Unicode code points. *)
Definition str := list N.

(** [lit "abc"] is the Python literal ['abc'] (ASCII literals only). *)
Definition lit (s : string) : str := List.map N_of_ascii (list_ascii_of_string s).

Definition str_eqb (a b : str) : bool :=
  if list_eq_dec N.eq_dec a b then true else false.

(** [c] lies in the closed range of code points [lo .. hi]. *)
Definition between (lo hi c : N) : bool := ((lo <=? c) && (c <=? hi))%N.

(** [str.isalnum] on a one-character string. On ASCII it is exactly
    [0-9A-Za-z]; above ASCII the answer comes from the Unicode database,
    here the parameter [uni]. *)
Definition isalnum (uni : N -> bool) (c : N) : bool :=
  if (c <? 128)%N
  then between 48 57 c || between 65 90 c || between 97 122 c
  else uni c.

(** [c in " _-"] for a one-character string [c]. *)
Definition in_space_underscore_hyphen (c : N) : bool :=
  (c =? 32)%N || (c =? 95)%N || (c =? 45)%N.

(** [s.endswith(suffix)]. *)
Definition endswith (s suffix : str) : bool :=
  (List.length suffix <=? List.length s)%nat
  && str_eqb (skipn (List.length s - List.length suffix) s) suffix.

(** [sep.join(parts)]. *)
Fixpoint join (sep : str) (parts : list str) : str :=
  match parts with
  | [] => []
  | [p] => p
  | p :: rest => p ++ sep ++ join sep rest
  end.

(** [str(z)] for an [int]: the decimal numeral, with a minus sign below 0. *)
Definition str_of_int (z : Z) : str := lit (NilZero.string_of_int (Z.to_int z)).

(** *** [int(s)] for a [str]

    The strings given to [int] here are header values, which the HTTP
    client decodes as Latin-1. *)
Definition latin1 (s : str) : Prop := Forall (fun c => (c < 256)%N) s.

(** The white space [int] strips at both ends of a Latin-1 text: that of
    C (U+0009-000D and the space), and U+0085 and U+00A0, the Unicode
    white space above ASCII, which [int] turns into spaces first.
    U+001C-001F, white space for [str.isspace], are not stripped. *)
Definition isspace (c : N) : bool :=
  between 9 13 c || (c =? 32)%N || (c =? 133)%N || (c =? 160)%N.

Definition isdigit (c : N) : bool := between 48 57 c.

Fixpoint lstrip (s : str) : str :=
  match s with
  | c :: t => if isspace c then lstrip t else s
  | [] => []
  end.

Definition strip (s : str) : str := rev (lstrip (rev (lstrip s))).

(** The digits after the sign; [after_digit] tells whether the character
    just read was a digit (an underscore is accepted only there, and the
    numeral may not end on one). *)
Fixpoint int_digits (acc : Z) (after_digit : bool) (s : str) : option Z :=
  match s with
  | [] => if after_digit then Some acc else None
  | c :: t =>
      if isdigit c then int_digits (10 * acc + (Z.of_N c - 48)) true t
      else if (c =? 95)%N && after_digit then int_digits acc false t
      else None
  end.

(** The most digits [int] reads ([sys.get_int_max_str_digits()], which
    the script leaves at its default); with more it raises
    [ValueError]. *)
Definition max_str_digits : N := 4300.

(** [int(s)], [None] for the [ValueError]: white space is stripped at
    both ends, then comes an optional sign, then digits in which single
    underscores may separate two digits, [max_str_digits] of them at
    most. *)
Definition py_int (s : str) : option Z :=
  if (max_str_digits <? N.of_nat (List.length (List.filter isdigit s)))%N
  then None
  else
    match strip s with
    | 43%N :: t => int_digits 0 false t
    | 45%N :: t => option_map Z.opp (int_digits 0 false t)
    | t => int_digits 0 false t
    end.

(** [os.path.join(a, b)] for a non-empty [a] that does not end in a
    separator and a relative [b], the only way the script calls it
    (POSIX separator). *)
Definition path_join (a b : str) : str := a ++ lit "/" ++ b.

End Py.

Import Py.

(* ------------------------------------------------------------------ *)
(** ** The part of pandas the script uses *)

Module Frame.

(** A value held by a cell that is not missing. *)
Inductive scalar :=
| SInt (z : Z)
| SFloat (q : Q)
| SStr (s : str).

(** A cell; [None] is the missing value (NaN, None, NaT). *)
Definition cell := option scalar.

Definition row := list cell.

(** A table: its column labels and its rows in index order, each row with
    one cell per column. *)
Record DataFrame := { columns : list str; rows : list row }.

(** [len(df)]. *)
Definition nrows (df : DataFrame) : nat := List.length (rows df).

Definition mem (c : str) (l : list str) : bool := existsb (str_eqb c) l.

(** No label occurs twice. *)
Fixpoint distinct (l : list str) : bool :=
  match l with
  | [] => true
  | c :: t => negb (mem c t) && distinct t
  end.

(** One cell per column and no label twice, as [pd.read_csv] builds its
    tables (it renames a repeated label). *)
Definition well_formed (df : DataFrame) : bool :=
  distinct (columns df)
  && forallb (fun r => (List.length r =? List.length (columns df))%nat) (rows df).

(** Python's [==] on two values. *)
Definition scalar_eqb (a b : scalar) : bool :=
  match a, b with
  | SInt x, SInt y => (x =? y)%Z
  | SFloat x, SFloat y => Qeq_bool x y
  | SInt x, SFloat y => Qeq_bool (inject_Z x) y
  | SFloat x, SInt y => Qeq_bool x (inject_Z y)
  | SStr x, SStr y => str_eqb x y
  | _, _ => false
  end.

(** One element of [series == value]: a missing cell equals nothing. *)
Definition cell_is (v : scalar) (c : cell) : bool :=
  match c with
  | Some x => scalar_eqb x v
  | None => false
  end.

(** Position of a label among the columns. *)
Fixpoint index_of (label : str) (cols : list str) : option nat :=
  match cols with
  | [] => None
  | c :: rest =>
      if str_eqb c label then Some 0%nat
      else option_map S (index_of label rest)
  end.

(** The cell of a row at a column position. *)
Definition at_col (j : nat) (r : row) : cell := nth j r None.

(** [df[label]]: the cells of one column, [None] for the [KeyError]. *)
Definition series (df : DataFrame) (label : str) : option (list cell) :=
  option_map (fun j => List.map (at_col j) (rows df)) (index_of label (columns df)).

(** [df[df[label] == v]]: the rows whose cell in that column equals [v],
    in their order. *)
Definition select_rows (df : DataFrame) (label : str) (v : scalar)
  : option DataFrame :=
  option_map
    (fun j => {| columns := columns df;
                 rows := List.filter (fun r => cell_is v (at_col j r)) (rows df) |})
    (index_of label (columns df)).

(** [series.dropna()]. *)
Fixpoint dropna (s : list cell) : list scalar :=
  match s with
  | [] => []
  | Some v :: t => v :: dropna t
  | None :: t => dropna t
  end.

(** [str(v)]; the text of a float is Python's, given by [float_str]. *)
Definition py_str (float_str : Q -> str) (v : scalar) : str :=
  match v with
  | SInt z => str_of_int z
  | SFloat q => float_str q
  | SStr s => s
  end.

(** [series.astype(str).tolist()] on a series without missing cells. *)
Definition astype_str (float_str : Q -> str) (s : list scalar) : list str :=
  List.map (py_str float_str) s.

(** Lines 147-148:
    [filtered = df_geo[df_geo[filter_column] == filter_value]],
    [reach_ids = filtered['reach_id'].dropna().astype(str).tolist()]. *)
Definition reach_ids (float_str : Q -> str) (df_geo : DataFrame)
  (filter_column : str) (filter_value : scalar) : option (list str) :=
  match select_rows df_geo filter_column filter_value with
  | Some filtered =>
      match series filtered (lit "reach_id") with
      | Some ids => Some (astype_str float_str (dropna ids))
      | None => None
      end
  | None => None
  end.

(** The value is one of the cells of the column. *)
Definition occurs (df : DataFrame) (label : str) (v : scalar) : bool :=
  match series df label with
  | Some s => existsb (cell_is v) s
  | None => false
  end.

(** Row [r] with the cell at position [j] replaced. *)
Fixpoint set_col (j : nat) (c : cell) (r : row) : row :=
  match r, j with
  | [], _ => []
  | _ :: t, O => c :: t
  | x :: t, S j' => x :: set_col j' c t
  end.

(** [df[label] = values]: the k-th row takes the k-th value. *)
Fixpoint assign_column (j : nat) (rs : list row) (values : list cell)
  : list row :=
  match rs with
  | [] => []
  | r :: rest => set_col j (hd None values) r :: assign_column j rest (tl values)
  end.

Definition notna (c : cell) : bool :=
  match c with Some _ => true | None => false end.

(** Lines 193-195: when the table has a [time_str] column it is replaced
    by [pd.to_datetime(..., errors='coerce')] of itself (a cell that does
    not parse becomes missing) and the rows where it is missing are
    dropped. *)
Definition parse_time_str (to_datetime : list cell -> list cell)
  (df : DataFrame) : DataFrame :=
  match index_of (lit "time_str") (columns df) with
  | Some j =>
      let converted := to_datetime (List.map (at_col j) (rows df)) in
      {| columns := columns df;
         rows := List.filter (fun r => notna (at_col j r))
                   (assign_column j (rows df) converted) |}
  | None => df
  end.

(** The labels of [l] not in [seen], each once, in order of first
    appearance. *)
Fixpoint fresh_labels (seen l : list str) : list str :=
  match l with
  | [] => []
  | c :: t =>
      if mem c seen then fresh_labels seen t
      else c :: fresh_labels (c :: seen) t
  end.

(** The columns of [pd.concat(dfs)]: the union of the tables' columns in
    order of first appearance. *)
Definition union_columns (dfs : list DataFrame) : list str :=
  fresh_labels [] (flat_map columns dfs).

(** A row laid out on other columns: a column the row's table lacks is
    missing. *)
Definition reindex (from to : list str) (r : row) : row :=
  List.map
    (fun c => match index_of c from with
              | Some j => at_col j r
              | None => None
              end) to.

(** The rows of the tables laid out on columns [cols]: the rows of the
    first table, then of the second, and so on. *)
Definition lay_out (cols : list str) (dfs : list DataFrame) : list row :=
  flat_map (fun df => List.map (reindex (columns df) cols) (rows df)) dfs.

(** The cells of the column at position [j] of some rows. *)
Definition column_at (j : nat) (rs : list row) : list cell :=
  List.map (at_col j) rs.

(** Rows on [n] columns with each column given one dtype: [common col]
    is the conversion pandas applies to every cell of a column whose
    cells are [col] (none when the cells agree; integers become floats
    beside a float or a missing cell). *)
Definition astype_common (common : list cell -> cell -> cell) (n : nat)
  (rs : list row) : list row :=
  List.map
    (fun r => List.map (fun j => common (column_at j rs) (at_col j r)) (seq 0 n))
    rs.

(** [pd.concat(dfs, ignore_index=True)] for a non-empty list of tables:
    the rows of the first table, then of the second, and so on, on the
    union of the columns, each column with the dtype common to its
    cells. *)
Definition concat (common : list cell -> cell -> cell) (dfs : list DataFrame)
  : DataFrame :=
  let cols := union_columns dfs in
  {| columns := cols;
     rows := astype_common common (List.length cols) (lay_out cols dfs) |}.


(** No cell holds the empty string: what [gpd.read_file] gives for a
    shapefile, a blank text field being read as a missing value. *)
Definition blank_free (df : DataFrame) : bool :=
  forallb
    (forallb (fun c : cell =>
                match c with
                | Some (SStr []) => false
                | _ => true
                end))
    (rows df).

End Frame.

Import Frame.

(* ------------------------------------------------------------------ *)
(** ** Output names of a run (lines 154-157 and 209) *)

Module Names.

Section WithUnicode.

(** [str.isalnum] above ASCII. *)
Variable uni : N -> bool.

(** The test of the generator expression:
    [c.isalnum() or c in " _-"]. *)
Definition keeps (c : N) : bool :=
  isalnum uni c || in_space_underscore_hyphen c.

(** [safe_val = "".join(c for c in filter_value if ...)]. *)
Definition safe_val (filter_value : str) : str :=
  List.filter keeps filter_value.

(** [OUTPUT_DIR = f"swot_{safe_val}_output"]. *)
Definition OUTPUT_DIR (filter_value : str) : str :=
  lit "swot_" ++ safe_val filter_value ++ lit "_output".

(** [LOG_FILE = os.path.join(OUTPUT_DIR, "logger.txt")]. *)
Definition LOG_FILE (filter_value : str) : str :=
  path_join (OUTPUT_DIR filter_value) (lit "logger.txt").

(** [f"reach_{rid}.csv"] joined to the output directory. *)
Definition reach_path (filter_value rid : str) : str :=
  path_join (OUTPUT_DIR filter_value) (lit "reach_" ++ rid ++ lit ".csv").

(** [f"combined_{safe_val}.csv"], the name offered for download. *)
Definition combined_name (filter_value : str) : str :=
  lit "combined_" ++ safe_val filter_value ++ lit ".csv".

(** [combined_path = os.path.join(OUTPUT_DIR, f"combined_{safe_val}.csv")]. *)
Definition combined_path (filter_value : str) : str :=
  path_join (OUTPUT_DIR filter_value) (combined_name filter_value).

(** The sanitisation as the specification words it: going through the
    value from left to right, a character of the allowed set is kept in
    place and any other character is dropped. *)
Inductive strips : str -> str -> Prop :=
| strips_nil : strips [] []
| strips_keep c v s :
    keeps c = true -> strips v s -> strips (c :: v) (c :: s)
| strips_drop c v s :
    keeps c = false -> strips v s -> strips (c :: v) s.

End WithUnicode.

End Names.

(* ------------------------------------------------------------------ *)
(** ** The upload block (lines 69-107) *)

Module Loader.

(** One uploaded file: [f.name], [f.size], [f.getbuffer()]. *)
Record UploadedFile := { name : str; size : N; buffer : list N }.

(** A directory: the files it holds, by name. *)
Definition directory := list (str * list N).

(** What the host does for the upload block. *)
Record Host := {
  (** [tempfile.mkdtemp(prefix="sword_temp_")] *)
  mkdtemp : str;
  (** [os.listdir] of a directory, in the order the system gives *)
  listdir : directory -> list str;
  (** [gpd.read_file] of a file of a directory: the table, or the message
      of the exception it raises *)
  read_file : directory -> str -> str + DataFrame
}.

(** [st.session_state.geo_df] and [st.session_state.upload_key]; both
    start as [None] (lines 70-73). *)
Record Session := {
  geo_df : option DataFrame;
  upload_key : option (list (str * N))
}.

Definition fresh_session : Session := {| geo_df := None; upload_key := None |}.

(** What the block does that a user or a test can see. *)
Inductive notice :=
| Parsed (path : str)      (* gpd.read_file(path) was called *)
| Success (n : nat)        (* st.success(f"Loaded {n} river reaches") *)
| Error (msg : str).       (* st.error(msg) *)

(** [tuple((f.name, f.size) for f in sword_file)]. *)
Definition key_of (sword_file : list UploadedFile) : list (str * N) :=
  List.map (fun f => (name f, size f)) sword_file.

Definition entry_eqb (a b : str * N) : bool :=
  str_eqb (fst a) (fst b) && (snd a =? snd b)%N.

Fixpoint tuple_eqb (a b : list (str * N)) : bool :=
  match a, b with
  | [], [] => true
  | x :: a', y :: b' => entry_eqb x y && tuple_eqb a' b'
  | _, _ => false
  end.

(** [current_key != st.session_state.upload_key]; a tuple differs from
    [None]. *)
Definition key_differs (current_key : list (str * N))
  (stored : option (list (str * N))) : bool :=
  match stored with
  | Some k => negb (tuple_eqb current_key k)
  | None => true
  end.

(** [open(os.path.join(temp_dir, file.name), 'wb').write(...)]: a file of
    that name is replaced. *)
Definition write_file (f : UploadedFile) (d : directory) : directory :=
  (name f, buffer f)
    :: List.filter (fun e => negb (str_eqb (fst e) (name f))) d.

Definition write_all (files : list UploadedFile) : directory :=
  fold_left (fun d f => write_file f d) files [].

(** Lines 89-107, one run of the script with [sword_file] uploaded. The
    files are written to a fresh temporary directory, which is removed at
    the end (line 107); writing and removing are taken to succeed and
    leave no mark on the session. *)
Definition load (h : Host) (sword_file : list UploadedFile) (s : Session)
  : Session * list notice :=
  match sword_file with
  | [] => (s, [])
  | _ :: _ =>
      let current_key := key_of sword_file in
      if key_differs current_key (upload_key s) then
        let temp_dir := write_all sword_file in
        let shp_files :=
          List.filter (fun f => endswith f (lit ".shp")) (listdir h temp_dir) in
        match shp_files with
        | shp :: _ =>
            let path := path_join (mkdtemp h) shp in
            match read_file h temp_dir shp with
            | inr df =>
                ({| geo_df := Some df; upload_key := Some current_key |},
                 [Parsed path; Success (nrows df)])
            | inl e =>
                (s, [Parsed path; Error (lit "Error loading shapefile: " ++ e)])
            end
        | [] => (s, [Error (lit "No .shp file found in upload")])
        end
      else (s, [])
  end.

(** The script run once per upload of a sequence, the session carried
    from one run to the next; the notices of all runs, run by run. *)
Fixpoint reruns (h : Host) (uploads : list (list UploadedFile)) (s : Session)
  : Session * list (list notice) :=
  match uploads with
  | [] => (s, [])
  | u :: rest =>
      let (s1, shown) := load h u s in
      let (s2, later) := reruns h rest s1 in
      (s2, shown :: later)
  end.

Definition parses (shown : list notice) : nat :=
  List.length (List.filter (fun n => match n with Parsed _ => true | _ => false end) shown).

End Loader.

(* ------------------------------------------------------------------ *)
(** ** The "Process Data" block (lines 145-218) *)

Module Fetch.

(** The exceptions that can be raised inside the loop, and the one
    [st.stop()] raises, which is no subclass of [Exception]. *)
Inductive exn :=
| RequestException (msg : str)    (* requests.get: timeout, connection failure *)
| HTTPError (status : Z)          (* resp.raise_for_status() *)
| ValueError                      (* int(...) of a malformed text, time.sleep below 0 *)
| OverflowError                   (* time.sleep of too many seconds *)
| JSONDecodeError                 (* resp.json() *)
| AttributeError                  (* .get on a value that is no dict *)
| TypeError                       (* StringIO of a value that is no str *)
| PandasError (msg : str)         (* raised inside pd.read_csv or pd.to_datetime *)
| OSError (msg : str)             (* time.sleep whose deadline cannot be set *)
| WriteError (msg : str)          (* df.to_csv: OSError, or ValueError for a NUL in the path *)
| StopException.                  (* st.stop() *)

Definition is_Exception (e : exn) : bool :=
  match e with
  | StopException => false
  | _ => true
  end.

(** A decoded JSON document; a dict holds each key once. *)
#[local] Unset Elimination Schemes.
Inductive Json :=
| JNull
| JBool (b : bool)
| JNum (q : Q)
| JStr (s : str)
| JList (items : list Json)
| JDict (items : list (str * Json)).
#[local] Set Elimination Schemes.

(** What the script reads of a response: [resp.status_code],
    [resp.headers.get('Retry-After')], [resp.text], and [resp.json()],
    [None] when the body is no JSON. *)
Record Response := {
  status_code : Z;
  retry_after : option str;
  text : str;
  json : option Json
}.

(** Everything the block asks of the outside. *)
Record World := {
  (** [str.isalnum] above ASCII *)
  unicode_alnum : N -> bool;
  (** [requests.get(url, timeout=30)], the k-th call of the run (from 0):
      the response, or the message of the exception raised *)
  requests_get : nat -> str -> str + Response;
  (** [datetime.now().isoformat()] read after k calls of [requests.get] *)
  now_isoformat : nat -> str;
  (** [pd.read_csv(StringIO(text))]: the table, or the message of the
      exception raised *)
  read_csv : str -> str + DataFrame;
  (** [pd.to_datetime(series, errors='coerce')]: the converted cells, a
      cell that does not parse being missing, or the message of the
      exception the call raises when it does *)
  to_datetime : list cell -> str + list cell;
  (** the message of the exception that [df.to_csv(path)] raises for the
      file of a reach, [None] when the file is written: the identifier is
      put in the name as it is, so that a slash in it sends the file to a
      directory that may not be there, and the name may be too long *)
  file_error : str -> option str;
  (** the conversion [pd.concat] applies to the cells of a column, given
      the cells of the column, to give the column one dtype *)
  common_dtype : list cell -> cell -> cell;
  (** [time.monotonic_ns()] when [time.sleep] is called after k calls of
      [requests.get] *)
  monotonic_ns : nat -> Z
}.

(** What the block works on: the value chosen in the second select box, a
    [str] (line 154 goes through its characters), the identifiers lines
    147-148 found for it, the dates, the fields and the delay chosen. *)
Record Inputs := {
  filter_value : str;
  reach_ids : list str;
  start_date : str;              (* str(start_date), YYYY-MM-DD *)
  end_date : str;
  selected_fields : list str;
  throttle_delay : Q
}.

(** What can be observed of a run, in order. *)
Inductive event :=
| Progress (pos total : nat)             (* pbar.progress((i+1)/len(reach_ids)) *)
| Fetching (rid : str) (pos total : nat) (* status.info("Fetching reach ...") *)
| Get (url : str)                        (* requests.get, line 175 *)
| Retry (url : str)                      (* requests.get, line 180 *)
| RateLimited (retry : Z)                (* status.warning("Rate limited, ...") *)
| Sleep (seconds : Q)                    (* time.sleep *)
| BadRequest (rid body : str)            (* st.warning("Bad request for reach ...") *)
| NoData (rid : str)                     (* st.warning("No data for reach ...") *)
| Failed (rid : str) (e : exn)           (* st.error("Error with reach ...") *)
| NoReachIds                             (* st.warning("No reach IDs for ...") *)
| Processing (n : nat)                   (* st.info("Processing n reaches ...") *)
| MakeDirs (path : str)                  (* os.makedirs(OUTPUT_DIR, exist_ok=True) *)
| Processed (n errors : nat)             (* st.success("Processed n reaches with ...") *)
| NoDataRetrieved.                       (* st.warning("No data retrieved.") *)

(** The variables of the block and the files of the output directory.
    [log_file] holds what has been written to [LOG_FILE], one entry per
    [write]; [files] holds the writes of [to_csv], each with its path and
    its table, the latest first: a file holds the table of the latest
    write to its path ([file_at]). The log and the combined file, plain
    names in the directory [os.makedirs] has made before the loop, are
    taken to be written. *)
Record RunState := {
  results : list DataFrame;
  errors : nat;
  calls : nat;
  log_file : list str;
  files : list (str * DataFrame);
  trace : list event
}.

(** The state line 159 starts from; the log may hold lines of an earlier
    run, the file being opened for appending. *)
Definition start (old_log : list str) (old_files : list (str * DataFrame))
  : RunState :=
  {| results := []; errors := 0; calls := 0;
     log_file := old_log; files := old_files; trace := [] |}.

(** *** A state and exception monad for the statements of the block *)

Definition M (A : Type) : Type := RunState -> (exn + A) * RunState.

Definition ret {A} (a : A) : M A := fun s => (inr a, s).

Definition raise {A} (e : exn) : M A := fun s => (inl e, s).

Definition bind {A B} (m : M A) (k : A -> M B) : M B :=
  fun s =>
    match m s with
    | (inr a, s') => k a s'
    | (inl e, s') => (inl e, s')
    end.

Notation "x <- m ;; k" := (bind m (fun x => k))
  (at level 61, m at next level, right associativity).
Notation "m ;; k" := (bind m (fun _ => k))
  (at level 61, right associativity).

(** [try: body  except Exception as e: handler(e)]. *)
Definition try_except {A} (body : M A) (handler : exn -> M A) : M A :=
  fun s =>
    match body s with
    | (inl e, s') => if is_Exception e then handler e s' else (inl e, s')
    | done => done
    end.

(** [try: body  finally: final]: [final] runs whatever [body] did, and an
    exception of [final] replaces the outcome of [body]. *)
Definition try_finally {A} (body : M A) (final : M unit) : M A :=
  fun s =>
    let (outcome, s') := body s in
    match final s' with
    | (inr _, s'') => (outcome, s'')
    | (inl e, s'') => (inl e, s'')
    end.

Definition get_state : M RunState := fun s => (inr s, s).

Definition emit (e : event) : M unit :=
  fun s =>
    (inr tt,
     {| results := results s; errors := errors s; calls := calls s;
        log_file := log_file s; files := files s; trace := trace s ++ [e] |}).

(** [errors += 1]. *)
Definition incr_errors : M unit :=
  fun s =>
    (inr tt,
     {| results := results s; errors := S (errors s); calls := calls s;
        log_file := log_file s; files := files s; trace := trace s |}).

(** [results.append(df)]. *)
Definition append_result (df : DataFrame) : M unit :=
  fun s =>
    (inr tt,
     {| results := results s ++ [df]; errors := errors s; calls := calls s;
        log_file := log_file s; files := files s; trace := trace s |}).

(** [with open(LOG_FILE, "a") as logf: logf.write(line)]. *)
Definition append_log (line : str) : M unit :=
  fun s =>
    (inr tt,
     {| results := results s; errors := errors s; calls := calls s;
        log_file := log_file s ++ [line]; files := files s; trace := trace s |}).

(** [df.to_csv(path, index=False)] that writes its file. *)
Definition to_csv (path : str) (df : DataFrame) : M unit :=
  fun s =>
    (inr tt,
     {| results := results s; errors := errors s; calls := calls s;
        log_file := log_file s; files := (path, df) :: files s; trace := trace s |}).

(** The table a file holds after some writes, the latest first. *)
Fixpoint file_at (path : str) (writes : list (str * DataFrame))
  : option DataFrame :=
  match writes with
  | [] => None
  | (p, df) :: earlier => if str_eqb p path then Some df else file_at path earlier
  end.

(** *** [time.sleep]

    [time.sleep(seconds)] turns its argument into a 64-bit count of
    nanoseconds, rounded away from 0, and raises [OverflowError] when the
    count does not fit; it raises [ValueError] for a count below 0, which
    is one of seconds below 0; it then adds the count to the reading of
    the monotonic clock to get its deadline, and when the sum passes the
    64-bit range the system call fails and [OSError] is raised. *)
Definition int64_max : Z := 9223372036854775807.

Definition int64_min : Z := -9223372036854775808.

(** The longest wait in whole seconds whose count of nanoseconds fits. *)
Definition sleep_max : Z := 9223372036.

Definition round_away (q : Q) : Z :=
  if Qle_bool 0 q then Qceiling q else Qfloor q.

Definition timeout_ns (seconds : Q) : Z :=
  round_away (seconds * inject_Z 1000000000).

(** The reading of the monotonic clock, which counts from the start of
    the machine: it is taken between 0 and 2^62 nanoseconds (146
    years). *)
Definition boot_age_max : Z := 4611686018427387904.

Definition monotonic (w : World) (k : nat) : Z :=
  Z.max 0 (Z.min (monotonic_ns w k) boot_age_max).

Definition einval : str := lit "[Errno 22] Invalid argument".

(** The exception [time.sleep(seconds)] raises when it is called after
    [k] requests, [None] when it sleeps. *)
Definition refusal (w : World) (k : nat) (seconds : Q) : option exn :=
  if (timeout_ns seconds <? int64_min)%Z || (int64_max <? timeout_ns seconds)%Z
  then Some OverflowError
  else if negb (Qle_bool 0 seconds) then Some ValueError
  else if (int64_max <? monotonic w k + timeout_ns seconds)%Z
  then Some (OSError einval)
  else None.

(** [time.sleep(seconds)]. *)
Definition sleep (w : World) (seconds : Q) : M unit :=
  fun s =>
    match refusal w (calls s) seconds with
    | Some e => raise e s
    | None => emit (Sleep seconds) s
    end.

(** A wait in whole seconds that [time.sleep] takes whatever the clock
    shows: 2^32 seconds or less (136 years). *)
Definition sleep_sure : Z := 4294967296.

(** The number [int(resp.headers.get('Retry-After', 10))] gives: 10
    without the header, else what [int] reads in its text, [None] when
    [int] raises [ValueError]. *)
Definition retry_seconds (header : option str) : option Z :=
  match header with
  | None => Some 10%Z
  | Some s => py_int s
  end.

(** [int(resp.headers.get('Retry-After', 10))]. *)
Definition int_retry_after (header : option str) : M Z :=
  match retry_seconds header with
  | Some n => ret n
  | None => raise ValueError
  end.

(** [resp.raise_for_status()]. *)
Definition raise_for_status (resp : Response) : M unit :=
  if ((400 <=? status_code resp) && (status_code resp <? 600))%Z
  then raise (HTTPError (status_code resp))
  else ret tt.

(** [resp.json()]. *)
Definition resp_json (resp : Response) : M Json :=
  match json resp with
  | Some data => ret data
  | None => raise JSONDecodeError
  end.

Fixpoint lookup (key : str) (items : list (str * Json)) : option Json :=
  match items with
  | [] => None
  | (k, v) :: rest => if str_eqb k key then Some v else lookup key rest
  end.

(** [d.get(key, default)]; only a dict has [get]. *)
Definition dict_get (d : Json) (key : str) (default : Json) : M Json :=
  match d with
  | JDict items =>
      ret (match lookup key items with Some v => v | None => default end)
  | _ => raise AttributeError
  end.

(** The truth value [if csv_txt:] tests. *)
Definition truthy (j : Json) : bool :=
  match j with
  | JNull => false
  | JBool b => b
  | JNum q => negb (Qeq_bool q 0)
  | JStr s => match s with [] => false | _ => true end
  | JList items => match items with [] => false | _ => true end
  | JDict items => match items with [] => false | _ => true end
  end.

(** [StringIO(csv_txt)] for a truthy [csv_txt]. *)
Definition StringIO (j : Json) : M str :=
  match j with
  | JStr s => ret s
  | _ => raise TypeError
  end.

Section Run.

Variable w : World.
Variable inp : Inputs.

(** [len(reach_ids)]. *)
Definition total : nat := List.length (reach_ids inp).

(** [requests.get(url, timeout=30)]; [site] tells the two calls of the
    loop apart in the trace. *)
Definition http_get (site : str -> event) (url : str) : M Response :=
  fun s =>
    let s' :=
      {| results := results s; errors := errors s; calls := S (calls s);
         log_file := log_file s; files := files s;
         trace := trace s ++ [site url] |} in
    match requests_get w (calls s) url with
    | inr resp => (inr resp, s')
    | inl msg => (inl (RequestException msg), s')
    end.

(** [datetime.now().isoformat()]. *)
Definition datetime_now : M str :=
  fun s => (inr (now_isoformat w (calls s)), s).

(** [pd.read_csv(StringIO(csv_txt))]. *)
Definition pd_read_csv (buf : str) : M DataFrame :=
  match read_csv w buf with
  | inr df => ret df
  | inl msg => raise (PandasError msg)
  end.

(** Lines 193-195 on a table: the table they give, or the message of the
    exception [pd.to_datetime] raises. *)
Definition cleaned (df : DataFrame) : str + DataFrame :=
  match series df (lit "time_str") with
  | Some times =>
      match to_datetime w times with
      | inr converted => inr (parse_time_str (fun _ => converted) df)
      | inl msg => inl msg
      end
  | None => inr df
  end.

Definition clean_time_str (df : DataFrame) : M DataFrame :=
  match cleaned df with
  | inr df' => ret df'
  | inl msg => raise (PandasError msg)
  end.

(** Line 196, [df.to_csv] of the file of a reach. *)
Definition reach_to_csv (path : str) (df : DataFrame) : M unit :=
  match file_error w path with
  | Some msg => raise (WriteError msg)
  | None => to_csv path df
  end.

(** Lines 167-173. *)
Definition url (rid : str) : str :=
  lit "https://soto.podaac.earthdatacloud.nasa.gov/hydrocron/v1/timeseries?"
  ++ lit "feature=Reach&feature_id=" ++ rid
  ++ lit "&start_time=" ++ start_date inp ++ lit "T00:00:00Z"
  ++ lit "&end_time=" ++ end_date inp ++ lit "T00:00:00Z"
  ++ lit "&output=csv&fields=" ++ join (lit ",") (selected_fields inp).

(** Lines 176-180: the retry on a 429. *)
Definition retry_on_429 (rid : str) (resp : Response) : M Response :=
  if (status_code resp =? 429)%Z then
    retry <- int_retry_after (retry_after resp) ;;
    emit (RateLimited retry) ;;
    sleep w (inject_Z retry) ;;
    http_get Retry (url rid)
  else ret resp.

(** Lines 181-200: what is done with the response, retried or not. The
    [continue] of line 187 ends the turn, nothing follows the [try]
    statement in the loop. *)
Definition handle_response (rid : str) (resp : Response) : M unit :=
  if (status_code resp =? 400)%Z then
    emit (BadRequest rid (text resp)) ;;
    now <- datetime_now ;;
    append_log (now ++ lit " - " ++ rid ++ [10%N]) ;;
    incr_errors
  else
    raise_for_status resp ;;
    data <- resp_json resp ;;
    res <- dict_get data (lit "results") (JDict []) ;;
    csv_txt <- dict_get res (lit "csv") (JStr []) ;;
    if truthy csv_txt then
      buf <- StringIO csv_txt ;;
      df <- pd_read_csv buf ;;
      df <- clean_time_str df ;;
      reach_to_csv (Names.reach_path (unicode_alnum w) (filter_value inp) rid) df ;;
      append_result df
    else
      emit (NoData rid) ;;
      incr_errors.

(** Lines 175-200, the body of the [try]. *)
Definition try_body (rid : str) : M unit :=
  resp <- http_get Get (url rid) ;;
  resp <- retry_on_429 rid resp ;;
  handle_response rid resp.

(** Lines 201-203, the [except Exception as e] clause. *)
Definition handler (rid : str) (e : exn) : M unit :=
  emit (Failed rid e) ;;
  incr_errors.

(** Lines 165-205: one turn of the loop, for the reach at index [i]. *)
Definition iteration (i : nat) (rid : str) : M unit :=
  emit (Progress (i + 1) total) ;;
  emit (Fetching rid (i + 1) total) ;;
  try_finally
    (try_except (try_body rid) (handler rid))
    (sleep w (throttle_delay inp)).

(** [for i, rid in enumerate(reach_ids)], from index [i] on. *)
Fixpoint fetch_loop (i : nat) (ids : list str) : M unit :=
  match ids with
  | [] => ret tt
  | rid :: rest => iteration i rid ;; fetch_loop (S i) rest
  end.

(** Lines 207-218: the combined table, when there is one. *)
Definition present : M (option DataFrame) :=
  s <- get_state ;;
  match results s with
  | [] => emit NoDataRetrieved ;; ret None
  | _ :: _ =>
      let combined := concat (common_dtype w) (results s) in
      to_csv (Names.combined_path (unicode_alnum w) (filter_value inp)) combined ;;
      emit (Processed (List.length (results s)) (errors s)) ;;
      ret (Some combined)
  end.

(** Lines 149-218, once the button is pressed with a filter value and
    fields chosen. *)
Definition process : M (option DataFrame) :=
  match reach_ids inp with
  | [] => emit NoReachIds ;; raise StopException
  | _ :: _ =>
      emit (Processing total) ;;
      emit (MakeDirs (Names.OUTPUT_DIR (unicode_alnum w) (filter_value inp))) ;;
      fetch_loop 0 (reach_ids inp) ;;
      present
  end.

End Run.

(** *** Words for what a run meets *)

(** What the slider of line 143 returns: [st.slider(..., 0.1, 2.0, 0.5, 0.1)]. *)
Definition slider_range (d : Q) : Prop := 1 # 10 <= d /\ d <= 2.

(** A turn of the loop has one outcome: one more error and the same
    tables, or one more table and the same errors. *)
Definition one_outcome (s s' : RunState) : Prop :=
  (results s' = results s /\ errors s' = S (errors s))
  \/ (exists df, results s' = results s ++ [df] /\ errors s' = errors s).

(** An event of a step that starts no reach and does not wind the clock
    back. *)
Definition calm (e : event) : Prop :=
  match e with
  | Get _ => False
  | Sleep d => 0 <= d
  | _ => True
  end.

(** An event of a step that sends no request and does not sleep. *)
Definition silent (e : event) : Prop :=
  match e with
  | Get _ | Retry _ | Sleep _ => False
  | _ => True
  end.

(** The trace of the turns of a loop over [ids] from index [i], the
    delay being [d]: each turn shows its progress, sends the request of
    line 175, goes on without starting another reach, and ends on a sleep
    of [d] seconds; the next turn comes after that. *)
Inductive turns (inp : Inputs) (d : Q) : nat -> list str -> list event -> Prop :=
| turns_done i : turns inp d i [] []
| turns_next i rid rest mid later :
    Forall calm mid ->
    turns inp d (S i) rest later ->
    turns inp d i (rid :: rest)
      (Progress (i + 1) (total inp) :: Fetching rid (i + 1) (total inp)
         :: Get (url inp rid) :: mid ++ Sleep d :: later).

(** [answered w inp rid k resp]: line 181 of the turn for [rid], whose
    first request is call [k], tests the response [resp]; it is the first
    response when that is no 429, and the response to the retry when the
    first is a 429 whose wait [time.sleep] takes. *)
Inductive answered (w : World) (inp : Inputs) (rid : str) (k : nat)
  : Response -> Prop :=
| answered_first resp :
    requests_get w k (url inp rid) = inr resp ->
    status_code resp <> 429%Z ->
    answered w inp rid k resp
| answered_retry first n resp :
    requests_get w k (url inp rid) = inr first ->
    status_code first = 429%Z ->
    retry_seconds (retry_after first) = Some n ->
    refusal w (S k) (inject_Z n) = None ->
    requests_get w (S k) (url inp rid) = inr resp ->
    answered w inp rid k resp.

(** The state after lines 165-166 of the turn at index [i]: progress has
    been shown. *)
Definition turn_begins (inp : Inputs) (i : nat) (rid : str) (s : RunState)
  : RunState :=
  snd ((emit (Progress (i + 1) (total inp)) ;;
        emit (Fetching rid (i + 1) (total inp))) s).


(** The state after the sleep of line 205. *)
Definition turn_ends (inp : Inputs) (s : RunState) : RunState :=
  snd (emit (Sleep (throttle_delay inp)) s).

(** The wait the specification gives for a 429: the number of the
    [Retry-After] header, and 10 seconds when the header is absent or
    cannot be parsed. *)
Definition retry_after_per_spec (header : option str) : Z :=
  match header with
  | None => 10%Z
  | Some s =>
      match py_int s with
      | Some n => n
      | None => 10%Z
      end
  end.

(** A turn writes no table to a file, or the table of its reach to the
    file of its reach. *)
Definition writes_reach_file (w : World) (inp : Inputs) (rid : str)
  (s s' : RunState) : Prop :=
  files s' = files s
  \/ (exists df,
        files s'
        = (Names.reach_path (unicode_alnum w) (filter_value inp) rid, df)
            :: files s).

(** The state in which line 181 finds the run, [s] being the state the
    turn began in: nothing but the call count and the trace has changed,
    by one request, or by a request, a wait and a retry. *)
Definition reaches_line_181 (inp : Inputs) (rid : str) (s sx : RunState) : Prop :=
  results sx = results s /\ errors sx = errors s
  /\ log_file sx = log_file s /\ files sx = files s
  /\ ((calls sx = S (calls s)
       /\ trace sx = trace s ++ [Get (url inp rid)])
      \/ (exists n,
            calls sx = S (S (calls s))
            /\ trace sx
               = trace s ++ [Get (url inp rid); RateLimited n;
                             Sleep (inject_Z n); Retry (url inp rid)])).

(** [delivers w resp df]: the response has status 200 and a JSON body
    whose [results.csv] is a text that is not empty and that [pd.read_csv]
    reads as a table with one cell per column, which lines 193-195 clean
    without an exception; [df] is the table they give. *)
Inductive delivers (w : World) : Response -> DataFrame -> Prop :=
| delivers_table resp items res txt df0 df :
    status_code resp = 200%Z ->
    json resp = Some (JDict items) ->
    lookup (lit "results") items = Some (JDict res) ->
    lookup (lit "csv") res = Some (JStr txt) ->
    txt <> [] ->
    read_csv w txt = inr df0 ->
    well_formed df0 = true ->
    cleaned w df0 = inr df ->
    delivers w resp df.

(** The file of the reach can be written. *)
Definition writable (w : World) (inp : Inputs) (rid : str) : Prop :=
  file_error w (Names.reach_path (unicode_alnum w) (filter_value inp) rid) = None.


(** *** Reading the trace against a clock

    The clock counts the seconds slept: every other step takes some time
    too, so a difference of two readings is a lower bound of the time
    that passed. *)

(** The clock after a trace, when it shows [t] before it. *)
Fixpoint clock (t : Q) (tr : list event) : Q :=
  match tr with
  | [] => t
  | Sleep d :: rest => clock (t + d) rest
  | _ :: rest => clock t rest
  end.

(** The clock readings at which the reaches are started (the request of
    line 175 is sent), the clock showing [t] before the trace. *)
Fixpoint start_times (t : Q) (tr : list event) : list Q :=
  match tr with
  | [] => []
  | Sleep d :: rest => start_times (t + d) rest
  | Get _ :: rest => t :: start_times t rest
  | _ :: rest => start_times t rest
  end.

(** Any two neighbours of a list of readings are [d] apart or more. *)
Fixpoint spaced (d : Q) (ts : list Q) : Prop :=
  match ts with
  | t1 :: ((t2 :: _) as rest) => t1 + d <= t2 /\ spaced d rest
  | _ => True
  end.

(** The requests sent in a trace, first tries and retries. *)
Definition requests_sent (tr : list event) : nat :=
  List.length
    (List.filter (fun e => match e with Get _ | Retry _ => true | _ => false end) tr).

Definition retries_sent (tr : list event) : nat :=
  List.length
    (List.filter (fun e => match e with Retry _ => true | _ => false end) tr).

End Fetch.

(* ------------------------------------------------------------------ *)
(** ** Small inputs the properties are run on *)

Module Examples.

(** The text of a float is not looked at in the examples. *)
Definition no_floats (q : Q) : str := lit "nan".

(** Two reaches of one river; the identifier of the first was left
    blank in the shapefile and is missing. *)
Definition blank_id_dataset : DataFrame :=
  {| columns := [lit "river_name"; lit "reach_id"];
     rows := [ [Some (SStr (lit "Congo")); None];
               [Some (SStr (lit "Congo")); Some (SInt 7)] ] |}.

(** Three reaches on two rivers, one without an identifier. *)
Definition rivers_dataset : DataFrame :=
  {| columns := [lit "reach_id"; lit "river_name"];
     rows := [ [Some (SInt 11); Some (SStr (lit "Congo"))];
               [None; Some (SStr (lit "Congo"))];
               [Some (SInt 13); Some (SStr (lit "Niger"))] ] |}.

(** A bundle of two files, and a host whose shapefile reader rejects it. *)
Definition bundle : list Loader.UploadedFile :=
  [ {| Loader.name := lit "rivers.shp"; Loader.size := 3; Loader.buffer := [1; 2; 3]%N |};
    {| Loader.name := lit "rivers.dbf"; Loader.size := 2; Loader.buffer := [4; 5]%N |} ].

Definition rejecting_host : Loader.Host :=
  {| Loader.mkdtemp := lit "/tmp/sword_temp_x";
     Loader.listdir := fun d => List.map fst d;
     Loader.read_file := fun _ _ => inl (lit "not a shapefile") |}.

(** A host whose reader accepts every file. *)
Definition accepting_host : Loader.Host :=
  {| Loader.mkdtemp := lit "/tmp/sword_temp_x";
     Loader.listdir := fun d => List.map fst d;
     Loader.read_file := fun _ _ => inr rivers_dataset |}.

(** A session that holds a dataset from an earlier upload. *)
Definition loaded_session : Loader.Session :=
  {| Loader.geo_df := Some blank_id_dataset;
     Loader.upload_key := Some [(lit "old.shp", 9%N)] |}.

(** *** A server, and what the user chose *)

(** The table read from the text "A": two rows, the second with a time
    that does not parse. *)
Definition table_a : DataFrame :=
  {| columns := [lit "reach_id"; lit "time_str"; lit "wse"];
     rows := [ [Some (SInt 11); Some (SStr (lit "2024-01-01T00:00:00Z"));
                Some (SFloat (5 # 2))];
               [Some (SInt 11); Some (SStr (lit "no_data")); None] ] |}.

(** The table read from the text "B": one row, other columns. *)
Definition table_b : DataFrame :=
  {| columns := [lit "reach_id"; lit "width"];
     rows := [ [Some (SInt 12); Some (SFloat 80)] ] |}.


Definition ok_response (csv : string) : Fetch.Response :=
  {| Fetch.status_code := 200; Fetch.retry_after := None; Fetch.text := [];
     Fetch.json :=
       Some (Fetch.JDict
               [(lit "results", Fetch.JDict [(lit "csv", Fetch.JStr (lit csv))])]) |}.

Definition limited_response (header : option str) : Fetch.Response :=
  {| Fetch.status_code := 429; Fetch.retry_after := header;
     Fetch.text := lit "Too Many Requests"; Fetch.json := None |}.

Definition bad_request_response : Fetch.Response :=
  {| Fetch.status_code := 400; Fetch.retry_after := None;
     Fetch.text := lit "reach not found"; Fetch.json := None |}.

(** The conversion of a column that holds no string: beside a float or a
    missing cell, an integer becomes a float. *)
Definition upcast (col : list cell) (c : cell) : cell :=
  let is_str := fun x => match x with Some (SStr _) => true | _ => false end in
  let is_int := fun x => match x with Some (SInt _) => true | _ => false end in
  let not_int := fun x => match x with Some (SInt _) => false | _ => true end in
  if negb (existsb is_str col) && existsb is_int col && existsb not_int col
  then match c with
       | Some (SInt z) => Some (SFloat (inject_Z z))
       | _ => c
       end
  else c.

(** A world in which the k-th request gets [answers k]; its CSV reader
    knows the texts "A" and "B", its date parser rejects "no_data", and
    its files are written in the output directory, which has no directory
    in it. *)
Definition world_of (answers : nat -> str + Fetch.Response) : Fetch.World :=
  {| Fetch.unicode_alnum := fun _ => false;
     Fetch.requests_get := fun k _ => answers k;
     Fetch.now_isoformat := fun _ => lit "2026-01-01T12:00:00";
     Fetch.read_csv := fun txt =>
       if str_eqb txt (lit "A") then inr table_a
       else if str_eqb txt (lit "B") then inr table_b
       else inl (lit "No columns to parse from file");
     Fetch.to_datetime := fun times =>
       inr (List.map
              (fun c => if cell_is (SStr (lit "no_data")) c then None else c)
              times);
     Fetch.file_error := fun path =>
       if (2 <=? List.length (List.filter (N.eqb 47) path))%nat
       then Some (lit "Cannot save file into a non-existent directory")
       else None;
     Fetch.common_dtype := upcast;
     Fetch.monotonic_ns := fun _ => 21000000000000%Z |}.

Definition server_error_response : Fetch.Response :=
  {| Fetch.status_code := 500; Fetch.retry_after := None;
     Fetch.text := lit "Internal Server Error"; Fetch.json := None |}.

(** Seven reaches: served; limited, then served; not found; limited with
    a header that is no number; a server error; an empty payload; no
    answer. *)
Definition mixed_world : Fetch.World :=
  world_of (fun k =>
    match k with
    | 0 => inr (ok_response "A")
    | 1 => inr (limited_response None)
    | 2 => inr (ok_response "B")
    | 3 => inr bad_request_response
    | 4 => inr (limited_response (Some (lit "soon")))
    | 5 => inr server_error_response
    | 6 => inr (ok_response "")
    | _ => inl (lit "Read timed out.")
    end%nat).

(** The first request is limited with no header, and the retry too. *)
Definition twice_limited_world : Fetch.World :=
  world_of (fun _ => inr (limited_response None)).

(** The first request is limited with the header "soon"; a retry would be
    served. *)
Definition unreadable_wait_world : Fetch.World :=
  world_of (fun k =>
    match k with
    | 0%nat => inr (limited_response (Some (lit "soon")))
    | _ => inr (ok_response "A")
    end).

(** The first request is not found. *)
Definition not_found_world : Fetch.World :=
  world_of (fun _ => inr bad_request_response).

(** Both requests are served. *)
Definition served_world : Fetch.World :=
  world_of (fun k =>
    match k with
    | 0%nat => inr (ok_response "A")
    | _ => inr (ok_response "B")
    end).

Definition inputs_of (value : string) (ids : list string) : Fetch.Inputs :=
  {| Fetch.filter_value := lit value;
     Fetch.reach_ids := List.map lit ids;
     Fetch.start_date := lit "2023-08-01";
     Fetch.end_date := lit "2025-05-30";
     Fetch.selected_fields := [lit "reach_id"; lit "time_str"; lit "wse"];
     Fetch.throttle_delay := 1 # 2 |}.

Definition seven_reaches : Fetch.Inputs :=
  inputs_of "Congo/Zaire" ["11"; "12"; "13"; "14"; "15"; "16"; "17"]%string.

Definition one_reach : Fetch.Inputs := inputs_of "Congo" ["11"]%string.




(** The turn of the one reach in the world whose header is "soon". *)
Definition unreadable_wait_turn : Fetch.RunState :=
  snd (Fetch.iteration unreadable_wait_world one_reach 0 (lit "11")
         (Fetch.start [] [])).

End Examples.

(* ------------------------------------------------------------------ *)
(** ** The removal of the temporary directory (lines 13-21) *)

Module Cleanup.

(** What [robust_rmtree] does, in order. *)
Inductive action :=
| Rmtree (path : str)      (* shutil.rmtree(path) is called *)
| Nap.                     (* time.sleep(0.5) *)

(** The [for] loop of lines 15-20 with [left] turns to go; the next call
    of [shutil.rmtree] is the k-th of the function (from 0), and
    [rmtree k] tells whether that call returns or raises an
    [Exception]. *)
Fixpoint attempts (rmtree : nat -> bool) (path : str) (k left : nat)
  : bool * list action :=
  match left with
  | O => (false, [])
  | S left' =>
      if rmtree k then (true, [Rmtree path])
      else
        let (done, later) := attempts rmtree path (S k) left' in
        (done, Rmtree path :: Nap :: later)
  end.

(** [robust_rmtree(path)]: [for _ in range(3)]. *)
Definition robust_rmtree (rmtree : nat -> bool) (path : str)
  : bool * list action :=
  attempts rmtree path 0 3.

(** The calls of [shutil.rmtree] among some actions. *)
Definition tries (tr : list action) : nat :=
  List.length (List.filter (fun a => match a with Rmtree _ => true | Nap => false end) tr).

(** The sleeps of half a second among some actions. *)
Definition naps (tr : list action) : nat :=
  List.length (List.filter (fun a => match a with Nap => true | Rmtree _ => false end) tr).

End Cleanup.

(* ------------------------------------------------------------------ *)
(** ** The filter widgets and the button (lines 110-119 and 145-157) *)

Module Widgets.

(** The values of a series in order of first appearance, those equal to
    one of [seen] left out: [series.unique()]. *)
Fixpoint unique_from (seen l : list scalar) : list scalar :=
  match l with
  | [] => []
  | v :: t =>
      if existsb (scalar_eqb v) seen then unique_from seen t
      else v :: unique_from (v :: seen) t
  end.

(** Line 114:
    [distinct_vals = geo_df[filter_column].dropna().unique().tolist()]. *)
Definition distinct_vals (df : DataFrame) (filter_column : str)
  : option (list scalar) :=
  option_map (fun s => unique_from [] (dropna s)) (series df filter_column).

(** The truth value of a value: [0], [0.0] and [''] are false. *)
Definition scalar_truthy (v : scalar) : bool :=
  match v with
  | SInt z => negb (z =? 0)%Z
  | SFloat q => negb (Qeq_bool q 0)
  | SStr s => match s with [] => false | _ :: _ => true end
  end.

(** The truth value of [filter_value], which is [None] when the column
    has no value (line 119). *)
Definition value_truthy (filter_value : option scalar) : bool :=
  match filter_value with
  | Some v => scalar_truthy v
  | None => false
  end.

(** An exception of the block that no clause catches. *)
Inductive crash :=
| KeyError           (* df_geo[...] of a label that is no column *)
| NotIterable.       (* line 154 on a value that is no str *)

(** What a run of the script does at line 145. *)
Inductive click :=
| NotEntered                                  (* the condition is false *)
| Crashed (shown : list Fetch.event) (e : crash)  (* shown, then the exception *)
| Entered (out : (Fetch.exn + option DataFrame) * Fetch.RunState).

(** What the script holds when it gets to line 145. *)
Record Page := {
  df_geo : DataFrame;
  filter_column : str;
  filter_value : option scalar;
  start_date : str;
  end_date : str;
  selected_fields : list str;
  throttle_delay : Q
}.

(** The inputs of the block for a string value and the identifiers
    found. *)
Definition inputs_for (pg : Page) (value : str) (ids : list str) : Fetch.Inputs :=
  {| Fetch.filter_value := value;
     Fetch.reach_ids := ids;
     Fetch.start_date := start_date pg;
     Fetch.end_date := end_date pg;
     Fetch.selected_fields := selected_fields pg;
     Fetch.throttle_delay := throttle_delay pg |}.

(** Lines 145-218: [pressed] is what [st.button] returns. The block is
    entered when the button is pressed, the filter value is true and some
    field is selected; lines 147-148 filter the dataset; without an
    identifier the script stops (lines 149-151); line 154 goes through the
    characters of the filter value, which raises [TypeError] for a number;
    for a string the rest is [Fetch.process]. *)
Definition Process_Data (float_str : Q -> str) (w : Fetch.World)
  (pressed : bool) (pg : Page) (s0 : Fetch.RunState) : click :=
  match filter_value pg with
  | Some v =>
      if pressed && scalar_truthy v
         && match selected_fields pg with [] => false | _ :: _ => true end
      then
        match Frame.reach_ids float_str (df_geo pg) (filter_column pg) v with
        | None => Crashed [] KeyError
        | Some [] =>
            (* lines 149-151, which [Fetch.process] does for an empty list
               whatever the other inputs are *)
            Entered (Fetch.process w (inputs_for pg [] []) s0)
        | Some (rid :: rest) =>
            match v with
            | SStr value =>
                Entered (Fetch.process w (inputs_for pg value (rid :: rest)) s0)
            | _ => Crashed [Fetch.Processing (List.length (rid :: rest))] NotIterable
            end
        end
      else NotEntered
  | None => NotEntered
  end.

(** No two values of a list are equal. *)
Fixpoint all_differ (l : list scalar) : Prop :=
  match l with
  | [] => True
  | a :: t => Forall (fun b => scalar_eqb b a = false) t /\ all_differ t
  end.

End Widgets.

(* ------------------------------------------------------------------ *)
(** ** Reading the temporary directory *)

Module Shelf.

Import Loader.

(** The content a directory holds under a name. *)
Fixpoint dir_get (n : str) (d : directory) : option (list N) :=
  match d with
  | [] => None
  | (m, b) :: rest => if str_eqb m n then Some b else dir_get n rest
  end.

(** The content of the last of some uploaded files that has a name. *)
Fixpoint last_named (n : str) (files : list UploadedFile) : option (list N) :=
  match files with
  | [] => None
  | f :: rest =>
      match last_named n rest with
      | Some b => Some b
      | None => if str_eqb (name f) n then Some (buffer f) else None
      end
  end.

End Shelf.

(* ------------------------------------------------------------------ *)
(** ** Counting in a trace *)

Module Ledger.

Import Fetch.

(** The reaches started: the requests of line 175. *)
Definition gets (tr : list event) : nat :=
  List.length
    (List.filter (fun e => match e with Get _ => true | _ => false end) tr).

(** The warnings of line 182. *)
Definition bad_requests (tr : list event) : nat :=
  List.length
    (List.filter (fun e => match e with BadRequest _ _ => true | _ => false end) tr).

(** The messages that tell the user of a reach without a table: lines
    182, 199 and 202. *)
Definition shown_errors (tr : list event) : nat :=
  List.length
    (List.filter
       (fun e => match e with
                 | BadRequest _ _ | NoData _ | Failed _ _ => true
                 | _ => false
                 end) tr).

(** The steps of the progress bar, in order: the position it is set to
    and the number of reaches it is a fraction of. *)
Fixpoint progress_shown (tr : list event) : list (nat * nat) :=
  match tr with
  | [] => []
  | Progress pos n :: rest => (pos, n) :: progress_shown rest
  | _ :: rest => progress_shown rest
  end.

(** The URLs of the requests of line 175, in order. *)
Fixpoint first_tries (tr : list event) : list str :=
  match tr with
  | [] => []
  | Get u :: rest => u :: first_tries rest
  | _ :: rest => first_tries rest
  end.

(** [ledger g ps s s']: what some steps of the loop have changed between
    two states. The trace is extended; every call of [requests.get] is in
    it; every error counted has its message; at most one retry goes with a
    reach started; the log is extended by one line per bad request; the
    tables appended are the tables written to files, the last written
    first; [g] reaches were started and the progress bar went through the
    steps [ps]. *)
Definition ledger (g : nat) (ps : list (nat * nat)) (s s' : RunState) : Prop :=
  exists new added tables written,
    trace s' = trace s ++ new
    /\ calls s' = (calls s + requests_sent new)%nat
    /\ errors s' = (errors s + shown_errors new)%nat
    /\ (retries_sent new <= gets new)%nat
    /\ log_file s' = log_file s ++ added
    /\ List.length added = bad_requests new
    /\ results s' = results s ++ tables
    /\ files s' = written ++ files s
    /\ List.map snd written = rev tables
    /\ gets new = g
    /\ progress_shown new = ps.

End Ledger.

(* ------------------------------------------------------------------ *)
(** ** Words for some answers of the server *)

Module Answers.

Import Fetch.

(** The status is none that line 181 or [raise_for_status] stops at. *)
Definition passes_status (resp : Response) : Prop :=
  status_code resp <> 400%Z /\ ~ (400 <= status_code resp < 600)%Z.

(** [empty_payload resp]: the status passes and the body is a JSON dict
    that gives no text to parse: it has no "results" key, or "results" is
    a dict without a "csv" key, or with a "csv" that is false (the empty
    string, [null], 0, an empty list or dict). *)
Inductive empty_payload : Response -> Prop :=
| no_results resp items :
    passes_status resp ->
    json resp = Some (JDict items) ->
    lookup (lit "results") items = None ->
    empty_payload resp
| no_csv resp items res :
    passes_status resp ->
    json resp = Some (JDict items) ->
    lookup (lit "results") items = Some (JDict res) ->
    lookup (lit "csv") res = None ->
    empty_payload resp
| false_csv resp items res j :
    passes_status resp ->
    json resp = Some (JDict items) ->
    lookup (lit "results") items = Some (JDict res) ->
    lookup (lit "csv") res = Some j ->
    truthy j = false ->
    empty_payload resp.

(** The characters a text that [int] reads is made of: white space, the
    digits, the signs and the underscore. *)
Definition numeral_char (c : N) : bool :=
  isspace c || isdigit c || (c =? 43)%N || (c =? 45)%N || (c =? 95)%N.

End Answers.

(* ------------------------------------------------------------------ *)
(** ** More small inputs *)

Module Samples.

(** An upload without its shapefile. *)
Definition side_files : list Loader.UploadedFile :=
  [ {| Loader.name := lit "rivers.dbf"; Loader.size := 2; Loader.buffer := [4; 5]%N |};
    {| Loader.name := lit "rivers.shx"; Loader.size := 1; Loader.buffer := [6]%N |} ].

(** The page with the rivers loaded and a value chosen in a column. *)
Definition page_of (column : string) (value : scalar) : Widgets.Page :=
  {| Widgets.df_geo := Examples.rivers_dataset;
     Widgets.filter_column := lit column;
     Widgets.filter_value := Some value;
     Widgets.start_date := lit "2023-08-01";
     Widgets.end_date := lit "2025-05-30";
     Widgets.selected_fields := [lit "reach_id"; lit "time_str"; lit "wse"];
     Widgets.throttle_delay := 1 # 2 |}.

(** The reach 11 chosen by its number, and the river Congo by its
    name. *)
Definition numeric_page : Widgets.Page := page_of "reach_id" (SInt 11).


(** Servers that give the same answer to every request. *)
Definition server_error_world : Fetch.World :=
  Examples.world_of (fun _ => inr Examples.server_error_response).

Definition empty_world : Fetch.World :=
  Examples.world_of (fun _ => inr (Examples.ok_response "")).

Definition timeout_world : Fetch.World :=
  Examples.world_of (fun _ => inl (lit "Read timed out.")).

(** Servers that limit the first request, with a wait below 0 and with a
    date; a retry would be served. *)
Definition limited_then_served (header : string) : Fetch.World :=
  Examples.world_of (fun k =>
    match k with
    | 0%nat => inr (Examples.limited_response (Some (lit header)))
    | _ => inr (Examples.ok_response "A")
    end).

Definition negative_wait_world : Fetch.World := limited_then_served "-5".

Definition dated_wait_world : Fetch.World :=
  limited_then_served "Wed, 21 Oct 2015 07:28:00 GMT".

End Samples.

(* ================================================================== *)
(** * Properties *)

Unset Implicit Arguments.

(* ------------------------------------------------------------------ *)
(** ** Strings *)

Module PyFacts.

Lemma str_eqb_eq (a b : str) : str_eqb a b = true <-> a = b.
Proof.
  unfold str_eqb. destruct (list_eq_dec N.eq_dec a b); split; congruence.
Qed.

Lemma str_eqb_refl (a : str) : str_eqb a a = true.
Proof. now apply str_eqb_eq. Qed.

Lemma str_eqb_neq (a b : str) : str_eqb a b = false <-> a <> b.
Proof.
  unfold str_eqb. destruct (list_eq_dec N.eq_dec a b); split; congruence.
Qed.

End PyFacts.

(* ------------------------------------------------------------------ *)
(** ** Output names *)

Module NamesFacts.

Import Names.

Section WithUnicode.

Variable uni : N -> bool.

Lemma safe_val_cons (c : N) (v : str) :
  safe_val uni (c :: v)
  = if keeps uni c then c :: safe_val uni v else safe_val uni v.
Proof. reflexivity. Qed.

Lemma safe_val_strips_it (v : str) : strips uni v (safe_val uni v).
Proof.
  induction v as [|c v IH].
  - constructor.
  - rewrite safe_val_cons. destruct (keeps uni c) eqn:K.
    + now apply strips_keep.
    + now apply strips_drop.
Qed.

Lemma strips_functional (v s : str) : strips uni v s -> s = safe_val uni v.
Proof.
  induction 1 as [|c v s K _ IH|c v s K _ IH];
    [reflexivity | | ]; rewrite safe_val_cons, K; congruence.
Qed.

Lemma safe_val_allowed (v : str) :
  Forall (fun c => keeps uni c = true) (safe_val uni v).
Proof.
  apply Forall_forall. intros c H. unfold safe_val in H.
  now apply filter_In in H.
Qed.


(** C8. The value is sanitised exactly as stated: [safe_val] keeps, in
    their order, the characters that are alphanumeric, a space, an
    underscore or a hyphen, and drops every other one ([strips] holds of
    it, and of nothing else); each character left is an allowed one; the
    directory name is a function of the sanitised value alone; and
    "Congo/Zaire" gives "CongoZaire". *)
Theorem safe_val_sanitizes (v : str) :
  strips uni v (safe_val uni v)
  /\ (forall s, strips uni v s -> s = safe_val uni v)
  /\ Forall (fun c => isalnum uni c || in_space_underscore_hyphen c = true)
       (safe_val uni v)
  /\ OUTPUT_DIR uni v = lit "swot_" ++ safe_val uni v ++ lit "_output"
  /\ safe_val uni (lit "Congo/Zaire") = lit "CongoZaire"
  /\ OUTPUT_DIR uni (lit "Congo/Zaire") = lit "swot_CongoZaire_output".
Proof.
  split; [apply safe_val_strips_it|].
  split; [apply strips_functional|].
  split; [apply safe_val_allowed|].
  repeat split.
Qed.


End WithUnicode.

End NamesFacts.

(* ------------------------------------------------------------------ *)
(** ** Tables *)

Module FrameFacts.

Import PyFacts.

Lemma mem_In (c : str) (l : list str) : mem c l = true <-> In c l.
Proof.
  unfold mem. rewrite existsb_exists. split.
  - intros [x [Hx E]]. apply str_eqb_eq in E. now subst.
  - intros H. exists c. split; [assumption | apply str_eqb_refl].
Qed.

Lemma mem_not_In (c : str) (l : list str) : mem c l = false <-> ~ In c l.
Proof.
  rewrite <- mem_In. destruct (mem c l); split; congruence.
Qed.







Lemma fresh_labels_In (c : str) (l seen : list str) :
  In c l -> In c seen \/ In c (fresh_labels seen l).
Proof.
  revert seen. induction l as [|d l IH]; intros seen H; [contradiction|].
  simpl. destruct (mem d seen) eqn:M.
  - destruct H as [->|H]; [left; now apply mem_In | now apply IH].
  - destruct H as [->|H]; [right; now left|].
    destruct (IH (d :: seen) H) as [[->|H']|H'].
    + right. now left.
    + now left.
    + right. now right.
Qed.




Lemma union_columns_In (dfs : list DataFrame) (df : DataFrame) (c : str) :
  In df dfs -> In c (columns df) -> In c (union_columns dfs).
Proof.
  intros Hdf Hc. unfold union_columns.
  destruct (fresh_labels_In c (flat_map columns dfs) []) as [[]|H]; [|assumption].
  apply in_flat_map. now exists df.
Qed.







Lemma well_formed_rows (df : DataFrame) (r : row) :
  well_formed df = true -> In r (rows df) ->
  List.length r = List.length (columns df).
Proof.
  unfold well_formed. intros W H.
  apply andb_true_iff in W as [_ W]. rewrite forallb_forall in W.
  now apply Nat.eqb_eq, W.
Qed.







End FrameFacts.

(* ------------------------------------------------------------------ *)
(** ** The filter (lines 147-148) *)

Module FilterFacts.

Import PyFacts FrameFacts.

Lemma dropna_In (x : scalar) (s : list cell) :
  In x (dropna s) <-> In (Some x) s.
Proof.
  induction s as [|[y|] s IH]; simpl.
  - tauto.
  - rewrite IH. split; intros [H|H]; auto; left; congruence.
  - rewrite IH. split; [auto | intros [H|H]; [discriminate | assumption]].
Qed.

Lemma dropna_length (s : list cell) :
  (List.length (dropna s) <= List.length s)%nat.
Proof.
  induction s as [|[y|] s IH]; simpl; lia.
Qed.

Lemma occurs_column (df : DataFrame) (label : str) (v : scalar) :
  occurs df label v = true -> exists j, index_of label (columns df) = Some j.
Proof.
  unfold occurs, series. destruct (index_of label (columns df)) as [j|].
  - intros _. now exists j.
  - discriminate.
Qed.

(** What lines 147-148 compute, once both columns are there. *)
Lemma reach_ids_unfold (float_str : Q -> str) (df : DataFrame)
  (label : str) (v : scalar) (jc jr : nat) :
  index_of label (columns df) = Some jc ->
  index_of (lit "reach_id") (columns df) = Some jr ->
  reach_ids float_str df label v
  = Some (List.map (py_str float_str)
            (dropna (List.map (at_col jr)
               (List.filter (fun r => cell_is v (at_col jc r)) (rows df))))).
Proof.
  intros Hc Hr. unfold reach_ids, select_rows, series. rewrite Hc.
  cbn [option_map columns rows]. now rewrite Hr.
Qed.

(** The text of an integer is not empty. *)
Lemma str_of_int_not_empty (z : Z) : str_of_int z <> [].
Proof.
  unfold str_of_int, NilZero.string_of_int, NilZero.string_of_uint.
  destruct (Z.to_int z) as [d|d]; destruct d; discriminate.
Qed.

(** A cell of a table without blanks holds no empty string. *)
Lemma blank_free_cell (df : DataFrame) (r : row) (j : nat) (x : scalar) :
  blank_free df = true -> In r (rows df) -> at_col j r = Some x -> x <> SStr [].
Proof.
  unfold blank_free, at_col. intros B Hr Hx ->.
  rewrite forallb_forall in B. specialize (B r Hr).
  rewrite forallb_forall in B.
  assert (Hin : In (Some (SStr [])) r).
  { destruct (Nat.lt_ge_cases j (List.length r)) as [Hj|Hj].
    - rewrite <- Hx. now apply nth_In.
    - rewrite nth_overflow in Hx by assumption. discriminate. }
  now specialize (B _ Hin).
Qed.

(** C5. For a loaded dataset, in which no cell is an empty string (a
    blank text field of a shapefile is read as a missing value), that has
    a [reach_id] column, and a value that occurs in the chosen column:
    the filter returns a list that is no longer than the dataset; each
    identifier of it is the text [str(x)] of a [reach_id] cell that is
    not missing, taken from a row whose chosen column equals the chosen
    value; and no identifier is empty, the text of a number never being
    empty. *)
Theorem reach_ids_from_matching_rows (float_str : Q -> str) (df : DataFrame)
  (label : str) (v : scalar) (jr : nat) :
  blank_free df = true ->
  (forall q, float_str q <> []) ->
  occurs df label v = true ->
  index_of (lit "reach_id") (columns df) = Some jr ->
  exists jc ids,
    index_of label (columns df) = Some jc
    /\ reach_ids float_str df label v = Some ids
    /\ (List.length ids <= nrows df)%nat
    /\ Forall (fun id =>
         exists r x,
           In r (rows df)
           /\ cell_is v (at_col jc r) = true
           /\ at_col jr r = Some x
           /\ id = py_str float_str x) ids
    /\ Forall (fun id => id <> []) ids.
Proof.
  intros B Hf Hocc Hr. destruct (occurs_column _ _ _ Hocc) as [jc Hc].
  exists jc. eexists. split; [exact Hc|].
  split; [apply (reach_ids_unfold float_str df label v jc jr Hc Hr)|].
  assert (F : Forall (fun id =>
                exists r x,
                  In r (rows df)
                  /\ cell_is v (at_col jc r) = true
                  /\ at_col jr r = Some x
                  /\ id = py_str float_str x)
                (List.map (py_str float_str)
                   (dropna (List.map (at_col jr)
                      (List.filter (fun r => cell_is v (at_col jc r)) (rows df)))))).
  { apply Forall_forall. intros id Hid.
    apply in_map_iff in Hid as [x [<- Hx]].
    apply dropna_In, in_map_iff in Hx as [r [Hx Hin]].
    apply filter_In in Hin as [Hin Hv].
    now exists r, x. }
  split; [|split; [exact F|]].
  - rewrite length_map. etransitivity; [apply dropna_length|].
    rewrite length_map. apply filter_length_le.
  - eapply Forall_impl; [|exact F]. cbn beta.
    intros id (r & x & Hin & _ & Hx & ->).
    pose proof (blank_free_cell df r jr x B Hin Hx) as Hb.
    destruct x as [z|q|t]; cbn [py_str].
    + apply str_of_int_not_empty.
    + apply Hf.
    + intros ->. now apply Hb.
Qed.

Lemma reach_ids_from_matching_rows_witness :
  exists jc ids,
    index_of (lit "river_name") (columns Examples.rivers_dataset) = Some jc
    /\ reach_ids Examples.no_floats Examples.rivers_dataset
         (lit "river_name") (SStr (lit "Congo")) = Some ids
    /\ (List.length ids <= nrows Examples.rivers_dataset)%nat
    /\ Forall (fun id =>
         exists r x,
           In r (rows Examples.rivers_dataset)
           /\ cell_is (SStr (lit "Congo")) (at_col jc r) = true
           /\ at_col 0 r = Some x
           /\ id = py_str Examples.no_floats x) ids
    /\ Forall (fun id => id <> []) ids.
Proof.
  apply (reach_ids_from_matching_rows Examples.no_floats Examples.rivers_dataset
           (lit "river_name") (SStr (lit "Congo")) 0%nat);
    try reflexivity.
  intros q. discriminate.
Defined.

End FilterFacts.

(* ------------------------------------------------------------------ *)
(** ** The upload block *)

Module LoaderFacts.

Import PyFacts Loader.

Lemma tuple_eqb_refl (k : list (str * N)) : tuple_eqb k k = true.
Proof.
  induction k as [|[n z] k IH]; [reflexivity|].
  simpl. unfold entry_eqb. simpl.
  now rewrite str_eqb_refl, N.eqb_refl, IH.
Qed.

Lemma key_differs_stored (k : list (str * N)) : key_differs k (Some k) = false.
Proof. unfold key_differs. now rewrite tuple_eqb_refl. Qed.

(** An upload whose identity is the stored one changes nothing and shows
    nothing. *)
Lemma load_same_key (h : Host) (files : list UploadedFile) (s : Session) :
  upload_key s = Some (key_of files) -> load h files s = (s, []).
Proof.
  intros E. unfold load. destruct files; [reflexivity|].
  now rewrite E, key_differs_stored.
Qed.

(** The three ways a load that does something can end. *)
Lemma load_cases (h : Host) (files : list UploadedFile) (s : Session) :
  load h files s = (s, [])
  \/ (key_differs (key_of files) (upload_key s) = true
      /\ ((exists p df,
             load h files s
             = ({| geo_df := Some df; upload_key := Some (key_of files) |},
                [Parsed p; Success (nrows df)]))
          \/ (exists p e,
                load h files s
                = (s, [Parsed p; Error (lit "Error loading shapefile: " ++ e)]))
          \/ load h files s = (s, [Error (lit "No .shp file found in upload")]))).
Proof.
  unfold load. destruct files as [|f files]; [now left|].
  destruct (key_differs (key_of (f :: files)) (upload_key s)); [|now left].
  right. split; [reflexivity|].
  destruct (List.filter _ _) as [|shp rest]; [now right; right|].
  destruct (read_file h _ shp) as [e|df].
  - right. left. now exists (path_join (mkdtemp h) shp), e.
  - left. now exists (path_join (mkdtemp h) shp), df.
Qed.

(** C6, as amended. An upload whose identity (name and size of each file)
    is the one stored by the last successful load is not parsed and leaves
    the session as it is; so an upload that has just been loaded with
    success is not parsed when the script runs again; and whenever the
    shapefile is parsed, the identity of the upload differs from the
    stored one. *)
Theorem same_identity_not_reparsed (h : Host) (files : list UploadedFile)
  (s : Session) :
  (upload_key s = Some (key_of files) -> load h files s = (s, []))
  /\ (forall n,
        In (Success n) (snd (load h files s)) ->
        load h files (fst (load h files s)) = (fst (load h files s), []))
  /\ (parses (snd (load h files s)) <> 0%nat ->
      upload_key s <> Some (key_of files)).
Proof.
  split; [apply load_same_key|]. split.
  - intros n Hn.
    destruct (load_cases h files s) as [E|[_ [[p [df E]]|[[p [e E]]|E]]]];
      rewrite E in *; cbn [fst snd] in *.
    + contradiction.
    + now apply load_same_key.
    + destruct Hn as [Hn|[Hn|[]]]; discriminate.
    + destruct Hn as [Hn|[]]; discriminate.
  - intros Hp E. rewrite (load_same_key h files s E) in Hp. now apply Hp.
Qed.

Lemma same_identity_not_reparsed_witness :
  In (Success 3)
    (snd (load Examples.accepting_host Examples.bundle Examples.loaded_session))
  /\ load Examples.accepting_host Examples.bundle
       (fst (load Examples.accepting_host Examples.bundle Examples.loaded_session))
     = (fst (load Examples.accepting_host Examples.bundle Examples.loaded_session),
        []).
Proof.
  assert (H : In (Success 3)
                (snd (load Examples.accepting_host Examples.bundle
                        Examples.loaded_session)))
    by (right; left; reflexivity).
  split; [exact H|].
  exact (proj1 (proj2 (same_identity_not_reparsed Examples.accepting_host
                         Examples.bundle Examples.loaded_session)) 3%nat H).
Defined.

(** C6 as stated fails: the same bundle uploaded twice in a row, its
    shapefile rejected by the reader, is parsed at the first run and
    parsed again at the second. *)
Lemma rejected_upload_is_reparsed :
  List.map parses
    (snd (Loader.reruns Examples.rejecting_host
            [Examples.bundle; Examples.bundle] fresh_session))
  = [1%nat; 1%nat].
Proof. reflexivity. Qed.

(** C7. When the shapefile of an upload is parsed and the parse fails
    with a message, the session is left as it was, dataset and stored
    identity, and the user is shown one error that carries the message. *)
Theorem failed_parse_keeps_session (h : Host) (files : list UploadedFile)
  (s : Session) (shp : str) (others : list str) (msg : str) :
  files <> [] ->
  key_differs (key_of files) (upload_key s) = true ->
  List.filter (fun f => endswith f (lit ".shp")) (listdir h (write_all files))
    = shp :: others ->
  read_file h (write_all files) shp = inl msg ->
  load h files s
  = (s, [Parsed (path_join (mkdtemp h) shp);
         Error (lit "Error loading shapefile: " ++ msg)]).
Proof.
  intros Hne Hk Hshp Hread. unfold load.
  destruct files as [|f files]; [contradiction|].
  now rewrite Hk, Hshp, Hread.
Qed.

Lemma failed_parse_keeps_session_witness :
  load Examples.rejecting_host Examples.bundle Examples.loaded_session
  = (Examples.loaded_session,
     [Parsed (lit "/tmp/sword_temp_x/rivers.shp");
      Error (lit "Error loading shapefile: not a shapefile")]).
Proof.
  apply (failed_parse_keeps_session Examples.rejecting_host
           Examples.bundle Examples.loaded_session
           (lit "rivers.shp") [] (lit "not a shapefile")).
  - discriminate.
  - reflexivity.
  - reflexivity.
  - reflexivity.
Defined.

End LoaderFacts.

(* ------------------------------------------------------------------ *)
(** ** The fetch loop *)

Module FetchFacts.

Import PyFacts FrameFacts Fetch.

(** Unfolds the statements of the block on a given state. *)
Ltac run_block :=
  cbv beta iota zeta delta
    [handle_response try_body retry_on_429 handler
     try_except try_finally bind ret raise emit incr_errors
     append_result append_log to_csv get_state datetime_now pd_read_csv
     clean_time_str reach_to_csv
     http_get int_retry_after raise_for_status resp_json dict_get StringIO
     truthy is_Exception];
  cbn [fst snd results errors calls log_file files trace].

(** Splits on the innermost test the goal is stuck on. *)
Ltac split_test :=
  match goal with
  | |- context [match ?x with _ => _ end] =>
      lazymatch x with
      | context [match _ with _ => _ end] => fail
      | _ => destruct x eqn:?
      end
  end.

Ltac run_all := run_block; repeat (split_test; run_block).

Section Run.

Variable w : World.
Variable inp : Inputs.

(** A wait of [sleep_sure] seconds or less is taken whatever the clock
    shows. *)
Lemma refusal_sure (k : nat) (d : Q) :
  0 <= d -> d <= inject_Z sleep_sure -> refusal w k d = None.
Proof.
  intros H0 H1. unfold refusal, timeout_ns, round_away.
  assert (Hp : 0 <= d * inject_Z 1000000000).
  { apply Qmult_le_0_compat; [assumption | discriminate]. }
  assert (Hq : d * inject_Z 1000000000
               <= inject_Z (sleep_sure * 1000000000)).
  { rewrite inject_Z_mult. apply Qmult_le_compat_r; [assumption | discriminate]. }
  rewrite (proj2 (Qle_bool_iff _ _) Hp), (proj2 (Qle_bool_iff _ _) H0).
  apply Qceiling_resp_le in Hp, Hq. rewrite Qceiling_Z in Hq.
  change (Qceiling 0) with 0%Z in Hp.
  set (ns := Qceiling (d * inject_Z 1000000000)) in *.
  assert (Hm : (0 <= monotonic w k <= boot_age_max)%Z).
  { unfold monotonic, boot_age_max. lia. }
  unfold sleep_sure, boot_age_max, int64_max, int64_min in *.
  destruct (Z.ltb_spec ns (-9223372036854775808)); [lia|].
  destruct (Z.ltb_spec 9223372036854775807 ns); [lia|].
  destruct (Z.ltb_spec 9223372036854775807 (monotonic w k + ns)); [lia|].
  reflexivity.
Qed.

Lemma sleep_taken (d : Q) (s : RunState) :
  refusal w (calls s) d = None -> sleep w d s = emit (Sleep d) s.
Proof.
  intros H. unfold sleep. now rewrite H.
Qed.

Lemma sleep_in_range (d : Q) (s : RunState) :
  0 <= d -> d <= inject_Z sleep_sure -> sleep w d s = emit (Sleep d) s.
Proof.
  intros H0 H1. apply sleep_taken. now apply refusal_sure.
Qed.

(** What is done with a response never leaves the [try] statement with an
    exception, has one outcome, sends nothing and does not sleep. *)
Lemma handled_summary (rid : str) (resp : Response) (s : RunState) :
  exists s' mid,
    try_except (handle_response w inp rid resp) (handler rid) s = (inr tt, s')
    /\ one_outcome s s'
    /\ writes_reach_file w inp rid s s'
    /\ calls s' = calls s
    /\ trace s' = trace s ++ mid
    /\ Forall silent mid.
Proof.
  unfold one_outcome, writes_reach_file. run_all.
  all: do 2 eexists; (split; [reflexivity|]);
    cbn [fst snd results errors calls log_file files trace].
  all: split;
    [first [left; split; reflexivity | right; eexists; split; reflexivity]|].
  all: split; [first [left; reflexivity | right; eexists; reflexivity]|].
  all: split; [reflexivity|].
  all: split;
    [first [rewrite <- ?app_assoc; reflexivity | symmetry; apply app_nil_r]|].
  all: cbn [app]; repeat constructor.
Qed.


Lemma try_except_bind {A B} (m : M A) (k : A -> M B) (h : exn -> M B)
  (s : RunState) :
  try_except (bind m k) h s
  = match m s with
    | (inr a, s1) => try_except (k a) h s1
    | (inl e, s1) => if is_Exception e then h e s1 else (inl e, s1)
    end.
Proof.
  unfold try_except, bind. now destruct (m s) as [[e|a] s1].
Qed.

(** The statements before line 181, unfolded on a given state. *)
Ltac run_head :=
  cbv beta iota zeta delta
    [try_body retry_on_429 bind ret raise emit incr_errors
     http_get int_retry_after sleep refusal is_Exception];
  cbn [fst snd results errors calls log_file files trace].

Lemma silent_calm (l : list event) : Forall silent l -> Forall calm l.
Proof.
  apply Forall_impl. intros [] H; (exact H || exact I || contradiction).
Qed.

Lemma negb_Qle_bool_false (a b : Q) : negb (Qle_bool a b) = false -> a <= b.
Proof.
  intros H. apply negb_false_iff in H. now apply Qle_bool_iff.
Qed.

(** The [try] statement of a turn never lets an exception out, has one
    outcome, starts with the request of line 175 and starts no other
    reach. *)
Lemma attempt_summary (rid : str) (s : RunState) :
  exists s' mid,
    try_except (try_body w inp rid) (handler rid) s = (inr tt, s')
    /\ one_outcome s s'
    /\ writes_reach_file w inp rid s s'
    /\ trace s' = trace s ++ Get (url inp rid) :: mid
    /\ Forall calm mid.
Proof.
  unfold try_body. rewrite try_except_bind. unfold http_get at 1.
  destruct (requests_get w (calls s) (url inp rid)) as [msg|resp].
  { run_head. do 2 eexists. split; [reflexivity|]. cbn [results errors trace].
    split; [left; now split|]. split; [now left|].
    split; [now rewrite <- app_assoc|].
    repeat constructor. }
  rewrite try_except_bind. run_head.
  repeat (split_test; run_head).
  all: lazymatch goal with
       | |- context [try_except (handle_response _ _ _ ?a) _ ?sx] =>
           destruct (handled_summary rid a sx) as (s' & mid & E & O & W & _ & T & F);
           rewrite E; exists s'; eexists;
           split; [reflexivity|]; split; [exact O|]; split; [exact W|];
           cbn [trace] in T; rewrite T, <- ?app_assoc; cbn [app];
           split; [reflexivity|]
       | _ =>
           unfold handler; run_head; do 2 eexists;
           split; [reflexivity|]; cbn [results errors trace];
           split; [left; now split|]; split; [now left|];
           rewrite <- ?app_assoc; cbn [app];
           split; [reflexivity|]
       end.
  all: repeat (apply Forall_cons;
               [cbn [calm]; auto using negb_Qle_bool_false|]).
  all: first [apply Forall_nil | now apply silent_calm].
Qed.


Lemma slider_sleeps (d : Q) (s : RunState) :
  slider_range d -> sleep w d s = emit (Sleep d) s.
Proof.
  intros [H0 H1]. apply sleep_in_range.
  - apply Qle_trans with (1 # 10); [discriminate | assumption].
  - apply Qle_trans with 2; [assumption | discriminate].
Qed.

(** One turn: it ends without an exception, has one outcome, and its
    trace is the progress shown, the request, events that start no reach,
    and the sleep of the delay. *)
Lemma iteration_summary (i : nat) (rid : str) (s : RunState) :
  slider_range (throttle_delay inp) ->
  exists s' mid,
    iteration w inp i rid s = (inr tt, s')
    /\ one_outcome s s'
    /\ writes_reach_file w inp rid s s'
    /\ trace s'
       = trace s
         ++ Progress (i + 1) (total inp) :: Fetching rid (i + 1) (total inp)
              :: Get (url inp rid) :: mid ++ [Sleep (throttle_delay inp)]
    /\ Forall calm mid.
Proof.
  intros Hd. unfold iteration.
  cbv beta iota delta [bind emit]. unfold try_finally.
  match goal with
  | |- context [try_except _ _ ?sx] =>
      destruct (attempt_summary rid sx) as (s1 & mid & E & O & W & T & F)
  end.
  rewrite E, (slider_sleeps _ _ Hd). cbv beta iota delta [emit].
  eexists. exists mid. split; [reflexivity|]. split; [exact O|].
  split; [exact W|].
  cbn [trace] in *. rewrite T, <- !app_assoc. cbn [app].
  split; [reflexivity | assumption].
Qed.

Lemma fetch_loop_cons (i : nat) (rid : str) (rest : list str) (s s' : RunState) :
  iteration w inp i rid s = (inr tt, s') ->
  fetch_loop w inp i (rid :: rest) s = fetch_loop w inp (S i) rest s'.
Proof.
  intros E. cbn [fetch_loop]. unfold bind at 1. now rewrite E.
Qed.

(** The whole loop: it ends without an exception, the tables and the
    errors together grow by the number of reaches, and its trace is a
    sequence of turns. *)
Lemma fetch_loop_summary (ids : list str) :
  slider_range (throttle_delay inp) ->
  forall (i : nat) (s : RunState),
  exists s' tr,
    fetch_loop w inp i ids s = (inr tt, s')
    /\ (List.length (results s') + errors s'
        = List.length (results s) + errors s + List.length ids)%nat
    /\ trace s' = trace s ++ tr
    /\ turns inp (throttle_delay inp) i ids tr
    /\ (exists written,
          files s' = written ++ files s
          /\ Forall (fun f =>
                exists rid,
                  fst f = Names.reach_path (unicode_alnum w) (filter_value inp) rid)
               written).
Proof.
  intros Hd. induction ids as [|rid rest IH]; intros i s.
  - exists s, []. cbn.
    repeat split; [lia | now rewrite app_nil_r | constructor | now exists []].
  - destruct (iteration_summary i rid s Hd) as (s1 & mid & E & O & W & T & F).
    destruct (IH (S i) s1) as (s2 & tr & E2 & N & T2 & Tu & written & Wr & Fw).
    exists s2.
    exists (Progress (i + 1) (total inp) :: Fetching rid (i + 1) (total inp)
              :: Get (url inp rid) :: mid ++ Sleep (throttle_delay inp) :: tr).
    rewrite fetch_loop_cons with (s' := s1) by exact E.
    split; [exact E2|]. split.
    + cbn [List.length].
      destruct O as [[Hr He]|[df [Hr He]]]; rewrite Hr, He in N;
        rewrite ?length_app in N; cbn [List.length] in N; lia.
    + rewrite T2, T, <- !app_assoc. cbn [app]. rewrite <- !app_assoc.
      cbn [app]. split; [reflexivity|]. split; [now constructor|].
      destruct W as [W|[df W]]; rewrite W in Wr.
      * now exists written.
      * exists (written ++ [(Names.reach_path (unicode_alnum w) (filter_value inp) rid, df)]).
        rewrite <- app_assoc. split; [exact Wr|].
        apply Forall_app. split; [assumption|].
        constructor; [now exists rid | constructor].
Qed.

End Run.

(** *** A turn whose response is known *)

Section Answered.

Variable w : World.
Variable inp : Inputs.

Lemma sleep_seconds (n : Z) (s : RunState) :
  (0 <= n <= sleep_sure)%Z ->
  sleep w (inject_Z n) s = emit (Sleep (inject_Z n)) s.
Proof.
  intros [H0 H1]. apply sleep_in_range.
  - change 0 with (inject_Z 0). now rewrite <- Zle_Qle.
  - now rewrite <- Zle_Qle.
Qed.


Lemma attempt_answered (rid : str) (s : RunState) (resp : Response) :
  answered w inp rid (calls s) resp ->
  exists sx,
    try_except (try_body w inp rid) (handler rid) s
    = try_except (handle_response w inp rid resp) (handler rid) sx
    /\ reaches_line_181 inp rid s sx.
Proof.
  intros A. unfold try_body, reaches_line_181.
  rewrite try_except_bind. unfold http_get at 1.
  destruct A as [resp H Hn|first n resp H H429 Hn Hr H2]; rewrite H;
    rewrite try_except_bind; unfold retry_on_429.
  - apply Z.eqb_neq in Hn. rewrite Hn. unfold ret.
    eexists. split; [reflexivity|]. cbn [results errors calls log_file files trace].
    repeat split. now left.
  - apply Z.eqb_eq in H429. rewrite H429.
    unfold int_retry_after. rewrite Hn.
    cbv beta iota delta [bind ret emit].
    rewrite sleep_taken by exact Hr.
    cbv beta iota delta [emit http_get].
    cbn [results errors calls log_file files trace]. rewrite H2.
    eexists. split; [reflexivity|]. cbn [results errors calls log_file files trace].
    repeat split. right. exists n. rewrite <- !app_assoc. now repeat split.
Qed.

(** Lines 181-187 on a response of status 400. *)
Lemma handle_400 (rid : str) (resp : Response) (sx : RunState) :
  status_code resp = 400%Z ->
  try_except (handle_response w inp rid resp) (handler rid) sx
  = (inr tt,
     {| results := results sx; errors := S (errors sx); calls := calls sx;
        log_file := log_file sx
                    ++ [now_isoformat w (calls sx) ++ lit " - " ++ rid ++ [10%N]];
        files := files sx;
        trace := trace sx ++ [BadRequest rid (text resp)] |}).
Proof.
  intros H. unfold handle_response. rewrite H. reflexivity.
Qed.

(** Line 188 on a response whose status is an error other than 400. *)
Lemma handle_http_error (rid : str) (resp : Response) (sx : RunState) :
  status_code resp <> 400%Z ->
  (400 <= status_code resp < 600)%Z ->
  try_except (handle_response w inp rid resp) (handler rid) sx
  = (inr tt,
     {| results := results sx; errors := S (errors sx); calls := calls sx;
        log_file := log_file sx; files := files sx;
        trace := trace sx ++ [Failed rid (HTTPError (status_code resp))] |}).
Proof.
  intros Hn [Hlo Hhi]. unfold handle_response, raise_for_status.
  apply Z.eqb_neq in Hn. apply Z.leb_le in Hlo. apply Z.ltb_lt in Hhi.
  now rewrite Hn, Hlo, Hhi.
Qed.

Lemma well_formed_set_col (j : nat) (c : cell) (r : row) :
  List.length (set_col j c r) = List.length r.
Proof.
  revert j. induction r as [|x r IH]; intros [|j]; cbn; auto.
Qed.




(** Lines 188-197 on a response that delivers a table, the file of the
    reach being written. *)
Lemma handle_delivery (rid : str) (resp : Response) (df : DataFrame)
  (sx : RunState) :
  delivers w resp df ->
  writable w inp rid ->
  try_except (handle_response w inp rid resp) (handler rid) sx
  = (inr tt,
     {| results := results sx ++ [df]; errors := errors sx; calls := calls sx;
        log_file := log_file sx;
        files := (Names.reach_path (unicode_alnum w) (filter_value inp) rid, df)
                   :: files sx;
        trace := trace sx |}).
Proof.
  intros [resp' items res txt df0 df' H200 Hj Hres Hcsv Hne Hread _ Hclean] Hw.
  unfold handle_response, raise_for_status. rewrite !H200.
  change (200 =? 400)%Z with false.
  change ((400 <=? 200) && (200 <? 600))%Z with false.
  cbv beta iota delta [bind ret try_except].
  unfold resp_json. rewrite Hj. cbv beta iota delta [dict_get ret].
  rewrite Hres. cbv beta iota. rewrite Hcsv. cbv beta iota delta [truthy].
  destruct txt as [|c txt]; [contradiction|].
  cbv beta iota delta [StringIO ret pd_read_csv]. rewrite Hread.
  cbv beta iota delta [clean_time_str reach_to_csv]. rewrite Hclean.
  unfold writable in Hw. rewrite Hw. reflexivity.
Qed.

End Answered.

(** *** Turns and runs whose responses are known *)

Section Turns.

Variable w : World.
Variable inp : Inputs.

Hypothesis delay_of_slider : slider_range (throttle_delay inp).

Lemma iteration_attempt (i : nat) (rid : str) (s s1 : RunState) :
  try_except (try_body w inp rid) (handler rid) (turn_begins inp i rid s)
  = (inr tt, s1) ->
  iteration w inp i rid s = (inr tt, turn_ends inp s1).
Proof.
  intros E. unfold iteration, turn_ends.
  cbv beta iota delta [bind emit]. unfold try_finally.
  unfold turn_begins in E. cbv beta iota delta [bind emit snd] in E.
  rewrite E, (slider_sleeps w _ _ delay_of_slider). reflexivity.
Qed.

(** A turn whose first response is a 429 with a wait [time.sleep]
    accepts: the wait is shown and slept, the request is sent once more,
    and whatever comes back nothing more is sent. *)
Lemma attempt_retry (rid : str) (s : RunState) (first : Response) (n : Z) :
  requests_get w (calls s) (url inp rid) = inr first ->
  status_code first = 429%Z ->
  retry_seconds (retry_after first) = Some n ->
  refusal w (S (calls s)) (inject_Z n) = None ->
  exists s' mid,
    try_except (try_body w inp rid) (handler rid) s = (inr tt, s')
    /\ trace s'
       = trace s ++ [Get (url inp rid); RateLimited n; Sleep (inject_Z n);
                     Retry (url inp rid)] ++ mid
    /\ Forall silent mid
    /\ calls s' = S (S (calls s))
    /\ one_outcome s s'.
Proof.
  intros H H429 Hn Hr. unfold try_body.
  rewrite try_except_bind. unfold http_get at 1. rewrite H.
  rewrite try_except_bind. unfold retry_on_429.
  apply Z.eqb_eq in H429. rewrite H429.
  unfold int_retry_after. rewrite Hn.
  cbv beta iota delta [bind ret emit].
  rewrite sleep_taken by exact Hr.
  cbv beta iota delta [emit http_get].
  cbn [results errors calls log_file files trace].
  destruct (requests_get w (S (calls s)) (url inp rid)) as [msg|second].
  - unfold handler. cbv beta iota delta [is_Exception bind emit incr_errors].
    eexists. exists [Failed rid (RequestException msg)].
    split; [reflexivity|]. cbn [results errors calls trace].
    rewrite <- !app_assoc. cbn [app].
    repeat split; [repeat constructor | left; now split].
  - match goal with
    | |- context [try_except _ _ ?sx] =>
        destruct (handled_summary w inp rid second sx)
          as (s' & mid & E & O & _ & C & T & F)
    end.
    rewrite E. exists s', mid. split; [reflexivity|].
    cbn [trace calls] in T, C. rewrite T, C, <- !app_assoc. cbn [app].
    repeat split; assumption.
Qed.

(** A turn whose first response is a 429 with a [Retry-After] that [int]
    cannot read: the [ValueError] is caught, nothing is slept, nothing is
    sent again. *)
Lemma attempt_unreadable_wait (rid : str) (s : RunState) (first : Response) :
  requests_get w (calls s) (url inp rid) = inr first ->
  status_code first = 429%Z ->
  retry_seconds (retry_after first) = None ->
  try_except (try_body w inp rid) (handler rid) s
  = (inr tt,
     {| results := results s; errors := S (errors s); calls := S (calls s);
        log_file := log_file s; files := files s;
        trace := (trace s ++ [Get (url inp rid)]) ++ [Failed rid ValueError] |}).
Proof.
  intros H H429 Hn. unfold try_body.
  rewrite try_except_bind. unfold http_get at 1. rewrite H.
  rewrite try_except_bind. unfold retry_on_429.
  apply Z.eqb_eq in H429. rewrite H429.
  unfold int_retry_after. rewrite Hn. reflexivity.
Qed.

(** C2, as amended. In a turn whose first response has status 429, its
    [Retry-After] header, if any, a Latin-1 text as the HTTP client gives
    it: the wait is 10 seconds when there is no header; a wait of 0 to
    2^32 seconds is one [time.sleep] takes whatever the clock shows; when
    the wait read from the header (or the 10 seconds) is one that
    [time.sleep] takes, the turn sleeps it and sends the request once
    more, and whatever the second response is nothing more is sent in the
    turn: a second 429 is an error of the reach and is not retried, a
    second response that delivers a table whose file can be written makes
    the reach a success; when the header cannot be read as an integer,
    the turn neither sleeps the wait nor sends the request again, and
    counts an error. *)
Theorem retried_once_on_429 (i : nat) (rid : str) (s : RunState)
  (first : Response) :
  requests_get w (calls s) (url inp rid) = inr first ->
  status_code first = 429%Z ->
  (forall header, retry_after first = Some header -> latin1 header) ->
  (retry_after first = None -> retry_seconds (retry_after first) = Some 10%Z)
  /\ (forall n,
        (0 <= n <= sleep_sure)%Z ->
        refusal w (S (calls s)) (inject_Z n) = None)
  /\ (forall n,
        retry_seconds (retry_after first) = Some n ->
        refusal w (S (calls s)) (inject_Z n) = None ->
        exists s' mid,
          iteration w inp i rid s = (inr tt, s')
          /\ trace s'
             = trace s
               ++ [Progress (i + 1) (total inp); Fetching rid (i + 1) (total inp);
                   Get (url inp rid); RateLimited n; Sleep (inject_Z n);
                   Retry (url inp rid)]
               ++ mid ++ [Sleep (throttle_delay inp)]
          /\ Forall silent mid
          /\ calls s' = S (S (calls s))
          /\ one_outcome s s'
          /\ (forall second,
                requests_get w (S (calls s)) (url inp rid) = inr second ->
                status_code second = 429%Z ->
                results s' = results s /\ errors s' = S (errors s))
          /\ (forall second df,
                requests_get w (S (calls s)) (url inp rid) = inr second ->
                delivers w second df ->
                writable w inp rid ->
                results s' = results s ++ [df] /\ errors s' = errors s))
  /\ (retry_seconds (retry_after first) = None ->
      exists s',
        iteration w inp i rid s = (inr tt, s')
        /\ trace s'
           = trace s
             ++ [Progress (i + 1) (total inp); Fetching rid (i + 1) (total inp);
                 Get (url inp rid); Failed rid ValueError;
                 Sleep (throttle_delay inp)]
        /\ calls s' = S (calls s)
        /\ errors s' = S (errors s)
        /\ results s' = results s).
Proof.
  intros H H429 _. split; [now intros ->|]. split.
  { intros n [H0 H1]. apply refusal_sure.
    - change 0 with (inject_Z 0). now rewrite <- Zle_Qle.
    - now rewrite <- Zle_Qle. }
  split.
  - intros n Hn Hr.
    destruct (attempt_retry rid (turn_begins inp i rid s) first n H H429 Hn Hr)
      as (s1 & mid & E & T & F & C & O).
    exists (turn_ends inp s1), mid.
    split; [now apply iteration_attempt|].
    assert (A : forall second,
              requests_get w (S (calls s)) (url inp rid) = inr second ->
              exists sx,
                try_except (handle_response w inp rid second) (handler rid) sx
                = (inr tt, s1)
                /\ results sx = results s /\ errors sx = errors s).
    { intros second H2.
      destruct (attempt_answered w inp rid (turn_begins inp i rid s) second)
        as (sx & E2 & Rr & Re & _).
      { now apply answered_retry with first n. }
      exists sx. rewrite <- E2. now repeat split. }
    unfold turn_ends, turn_begins in *.
    cbv beta iota delta [bind emit snd] in *.
    cbn [trace calls results errors] in *.
    rewrite T, <- ?app_assoc. cbn [app]. rewrite <- ?app_assoc.
    split; [reflexivity|]. split; [assumption|]. split; [assumption|].
    split; [assumption|]. split.
    + intros second H2 S429. destruct (A second H2) as (sx & E2 & Rr & Re).
      rewrite handle_http_error in E2 by (rewrite S429; lia).
      injection E2 as <-. cbn [results errors]. now rewrite Rr, Re.
    + intros second df H2 D Hw. destruct (A second H2) as (sx & E2 & Rr & Re).
      rewrite (handle_delivery w inp rid second df sx D Hw) in E2.
      injection E2 as <-. cbn [results errors]. now rewrite Rr, Re.
  - intros Hn.
    pose proof (attempt_unreadable_wait rid (turn_begins inp i rid s) first H H429 Hn)
      as E.
    apply iteration_attempt in E. eexists. split; [exact E|].
    unfold turn_ends, turn_begins. cbv beta iota delta [bind emit snd].
    cbn [trace calls results errors]. rewrite <- !app_assoc.
    now repeat split.
Qed.

(** C3. In a turn where the response tested at line 181 has status 400,
    the first response or the response to the retry, one line made of the
    time stamp, " - ", the reach identifier and a line end is appended to
    the log and nothing else is; the error counter is one higher; no table
    is added, to the list or to a file; and the loop goes on with the next
    reach. *)
Theorem bad_request_logged_once (i : nat) (rid : str) (rest : list str)
  (s : RunState) (resp : Response) :
  answered w inp rid (calls s) resp ->
  status_code resp = 400%Z ->
  exists s',
    iteration w inp i rid s = (inr tt, s')
    /\ log_file s'
       = log_file s ++ [now_isoformat w (calls s') ++ lit " - " ++ rid ++ [10%N]]
    /\ errors s' = S (errors s)
    /\ results s' = results s
    /\ files s' = files s
    /\ fetch_loop w inp i (rid :: rest) s = fetch_loop w inp (S i) rest s'.
Proof.
  intros A H400.
  destruct (attempt_answered w inp rid (turn_begins inp i rid s) resp A)
    as (sx & E & Rr & Re & Rl & Rf & _).
  rewrite handle_400 in E by exact H400.
  apply iteration_attempt in E. eexists. split; [exact E|].
  unfold turn_ends, turn_begins in *. cbv beta iota delta [bind emit snd] in *.
  cbn [results errors calls log_file files trace] in *.
  rewrite Rl, Re, Rr, Rf in E |- *. repeat split.
  now apply fetch_loop_cons.
Qed.

End Turns.

Section Runs.

Variable w : World.
Variable inp : Inputs.

Hypothesis delay_of_slider : slider_range (throttle_delay inp).








End Runs.

(** *** The clock *)

Lemma clock_app (t : Q) (a b : list event) :
  clock t (a ++ b) = clock (clock t a) b.
Proof.
  revert t. induction a as [|e a IH]; intros t; [reflexivity|].
  destruct e; cbn [app clock]; apply IH.
Qed.

Lemma clock_calm (t : Q) (mid : list event) :
  Forall calm mid -> t <= clock t mid.
Proof.
  intros F. revert t. induction F as [|e mid He _ IH]; intros t.
  - apply Qle_refl.
  - destruct e; cbn [clock]; try apply IH.
    cbn [calm] in He. apply Qle_trans with (t + seconds); [lra | apply IH].
Qed.

Lemma start_times_calm (t : Q) (mid rest : list event) :
  Forall calm mid ->
  start_times t (mid ++ rest) = start_times (clock t mid) rest.
Proof.
  intros F. revert t. induction F as [|e mid He _ IH]; intros t;
    [reflexivity|].
  destruct e; cbn [app start_times clock]; try apply IH.
  contradiction.
Qed.

Lemma inject_Z_succ (n : nat) :
  inject_Z (Z.of_nat (S n)) == inject_Z (Z.of_nat n) + 1.
Proof.
  rewrite Nat2Z.inj_succ. unfold Z.succ. now rewrite inject_Z_plus.
Qed.

(** Read against the clock, a sequence of turns starts its reaches at
    readings that are the delay apart or more, none before the clock at
    the start, and takes at least the delay per reach. *)
Lemma turns_clock (inp : Inputs) (d : Q) (i : nat) (ids : list str)
  (tr : list event) :
  0 <= d -> turns inp d i ids tr ->
  forall t,
    Forall (fun x => t <= x) (start_times t tr)
    /\ spaced d (start_times t tr)
    /\ t + inject_Z (Z.of_nat (List.length ids)) * d <= clock t tr.
Proof.
  intros Hd Tu. induction Tu as [i|i rid rest mid later F _ IH]; intros t.
  - cbn [start_times clock List.length]. split; [apply Forall_nil|].
    split; [exact I|]. change (inject_Z (Z.of_nat 0)) with 0. lra.
  - cbn [start_times clock]. rewrite start_times_calm, clock_app by assumption.
    cbn [start_times clock].
    pose proof (clock_calm t mid F) as Hc.
    destruct (IH (clock t mid + d)) as (A & S & C).
    split; [|split].
    + constructor; [apply Qle_refl|].
      eapply Forall_impl; [|exact A]. cbn beta. intros x Hx. lra.
    + destruct (start_times (clock t mid + d) later) as [|x l] eqn:E;
        [exact I|].
      split; [|exact S]. inversion A; subst. lra.
    + cbn [List.length]. rewrite inject_Z_succ. lra.
Qed.

(** C1. With a delay that the slider can give, whatever the server, the
    parsers and the clock do, the loop goes through all its reaches; its
    trace is a sequence of turns, one per reach in order, each ending on
    a sleep of the delay after the reach was handled and before the next
    reach is started; the starts of any two successive reaches are the
    delay apart or more on a clock that counts the sleeps; and the loop
    takes at least the delay times the number of reaches. *)
Theorem throttle_after_every_reach (w : World) (inp : Inputs) (i : nat)
  (ids : list str) (s : RunState) :
  slider_range (throttle_delay inp) ->
  exists s' tr,
    fetch_loop w inp i ids s = (inr tt, s')
    /\ trace s' = trace s ++ tr
    /\ turns inp (throttle_delay inp) i ids tr
    /\ (forall t, spaced (throttle_delay inp) (start_times t tr))
    /\ (forall t,
          t + inject_Z (Z.of_nat (List.length ids)) * throttle_delay inp
          <= clock t tr).
Proof.
  intros Hd.
  destruct (fetch_loop_summary w inp ids Hd i s) as (s' & tr & E & _ & T & Tu & _).
  assert (H0 : 0 <= throttle_delay inp).
  { destruct Hd as [Hd _].
    apply Qle_trans with (1 # 10); [discriminate | assumption]. }
  exists s', tr. repeat split; try assumption.
  - intros t. now destruct (turns_clock inp _ i ids tr H0 Tu t) as (_ & S & _).
  - intros t. now destruct (turns_clock inp _ i ids tr H0 Tu t) as (_ & _ & C).
Qed.

(** C9. With a delay that the slider can give, every turn of the loop
    ends with one outcome, a table appended or the error counter one
    higher, never both and never neither; so after the loop over [n]
    reaches the tables and the errors are [n] more, and [n] in all for a
    run, which starts with no table and no error. *)
Theorem tables_plus_errors (w : World) (inp : Inputs) :
  slider_range (throttle_delay inp) ->
  (forall i rid s,
     exists s', iteration w inp i rid s = (inr tt, s') /\ one_outcome s s')
  /\ (forall i ids s,
        exists s',
          fetch_loop w inp i ids s = (inr tt, s')
          /\ (List.length (results s') + errors s'
              = List.length (results s) + errors s + List.length ids)%nat)
  /\ (forall old_log old_files,
        exists s',
          fetch_loop w inp 0 (reach_ids inp) (start old_log old_files)
          = (inr tt, s')
          /\ (List.length (results s') + errors s'
              = List.length (reach_ids inp))%nat).
Proof.
  intros Hd. split; [|split].
  - intros i rid s.
    destruct (iteration_summary w inp i rid s Hd) as (s' & mid & E & O & _).
    now exists s'.
  - intros i ids s.
    destruct (fetch_loop_summary w inp ids Hd i s) as (s' & tr & E & N & _).
    now exists s'.
  - intros old_log old_files.
    destruct (fetch_loop_summary w inp (reach_ids inp) Hd 0
                (start old_log old_files)) as (s' & tr & E & N & _).
    exists s'. split; [exact E|]. cbn in N. lia.
Qed.

(** *** The properties on the small worlds *)

Lemma half_second_of_slider : slider_range (1 # 2).
Proof. split; discriminate. Defined.

Lemma throttle_after_every_reach_witness :
  exists s' tr,
    fetch_loop Examples.mixed_world Examples.seven_reaches 0
      (reach_ids Examples.seven_reaches) (start [] [])
    = (inr tt, s')
    /\ trace s' = trace (start [] []) ++ tr
    /\ turns Examples.seven_reaches (throttle_delay Examples.seven_reaches) 0
         (reach_ids Examples.seven_reaches) tr
    /\ (forall t,
          spaced (throttle_delay Examples.seven_reaches) (start_times t tr))
    /\ (forall t,
          t + inject_Z (Z.of_nat (List.length (reach_ids Examples.seven_reaches)))
              * throttle_delay Examples.seven_reaches
          <= clock t tr).
Proof.
  exact (throttle_after_every_reach Examples.mixed_world Examples.seven_reaches
           0 (reach_ids Examples.seven_reaches) (start [] [])
           half_second_of_slider).
Defined.

Lemma tables_plus_errors_witness :
  exists s',
    fetch_loop Examples.mixed_world Examples.seven_reaches 0
      (reach_ids Examples.seven_reaches) (start [] [])
    = (inr tt, s')
    /\ (List.length (results s') + errors s' = 7)%nat.
Proof.
  exact (proj2 (proj2 (tables_plus_errors Examples.mixed_world
                         Examples.seven_reaches half_second_of_slider))
           [] []).
Defined.

Lemma retried_once_on_429_witness :
  exists s',
    iteration Examples.twice_limited_world Examples.one_reach 0 (lit "11")
      (start [] [])
    = (inr tt, s')
    /\ calls s' = 2%nat
    /\ requests_sent (trace s') = 2%nat
    /\ retries_sent (trace s') = 1%nat
    /\ results s' = []
    /\ errors s' = 1%nat.
Proof.
  destruct (proj1 (proj2 (proj2
              (retried_once_on_429 Examples.twice_limited_world
                 Examples.one_reach half_second_of_slider
                 0 (lit "11") (start [] [])
                 (Examples.limited_response None) eq_refl eq_refl
                 ltac:(intros header Hh; discriminate Hh))))
              10%Z eq_refl eq_refl)
    as (s' & mid & E & T & F & C & _ & S429 & _).
  destruct (S429 (Examples.limited_response None) eq_refl eq_refl) as [R Er].
  exists s'. split; [exact E|]. split; [exact C|].
  assert (Tr : requests_sent (trace s') = 2%nat /\ retries_sent (trace s') = 1%nat).
  { vm_compute in E. injection E as <-. split; reflexivity. }
  destruct Tr as [T2 T1]. repeat split; assumption.
Defined.

(** C2 as stated fails: the first response is a 429 whose [Retry-After]
    is the text "soon", for which the specification gives a wait of 10
    seconds and one retry; the turn sends no retry, sleeps no 10 seconds,
    and counts the reach as an error. *)
Lemma unreadable_retry_after_not_retried :
  requests_get Examples.unreadable_wait_world 0
    (url Examples.one_reach (lit "11"))
  = inr (Examples.limited_response (Some (lit "soon")))
  /\ retry_after_per_spec (Some (lit "soon")) = 10%Z
  /\ retries_sent (trace Examples.unreadable_wait_turn) = 0%nat
  /\ ~ In (Sleep (inject_Z 10)) (trace Examples.unreadable_wait_turn)
  /\ errors Examples.unreadable_wait_turn = 1%nat.
Proof.
  split; [reflexivity|]. split; [reflexivity|]. split; [reflexivity|].
  split; [|reflexivity].
  vm_compute. intros H.
  repeat (destruct H as [H|H]; [discriminate|]). exact H.
Qed.

Lemma bad_request_logged_once_witness :
  exists s',
    iteration Examples.not_found_world Examples.one_reach 0 (lit "11")
      (start [] [])
    = (inr tt, s')
    /\ log_file s'
       = log_file (start [] [])
         ++ [now_isoformat Examples.not_found_world (calls s')
             ++ lit " - " ++ lit "11" ++ [10%N]]
    /\ errors s' = S (errors (start [] []))
    /\ results s' = results (start [] [])
    /\ files s' = files (start [] [])
    /\ fetch_loop Examples.not_found_world Examples.one_reach 0
         [lit "11"] (start [] [])
       = fetch_loop Examples.not_found_world Examples.one_reach 1 [] s'.
Proof.
  refine (bad_request_logged_once Examples.not_found_world Examples.one_reach
            half_second_of_slider 0 (lit "11") [] (start [] [])
            Examples.bad_request_response _ eq_refl).
  apply answered_first; [reflexivity | discriminate].
Defined.







End FetchFacts.

(* ------------------------------------------------------------------ *)
(** ** The removal of the temporary directory *)

Module CleanupFacts.

Import Cleanup.

(** The loop with [left] turns to go, its next call being the k-th. *)
Lemma attempts_summary (rmtree : nat -> bool) (path : str) (left : nat) :
  forall k,
    fst (attempts rmtree path k left) = existsb rmtree (seq k left)
    /\ (tries (snd (attempts rmtree path k left)) <= left)%nat
    /\ (1 <= left -> 1 <= tries (snd (attempts rmtree path k left)))%nat
    /\ naps (snd (attempts rmtree path k left))
       = (if fst (attempts rmtree path k left)
          then tries (snd (attempts rmtree path k left)) - 1
          else left)%nat
    /\ (forall j,
          (j + 1 < tries (snd (attempts rmtree path k left)))%nat ->
          rmtree (k + j)%nat = false)
    /\ (fst (attempts rmtree path k left) = true ->
        rmtree (k + (tries (snd (attempts rmtree path k left)) - 1))%nat = true).
Proof.
  induction left as [|left IH]; intros k.
  - cbn. repeat split; try lia; discriminate.
  - cbn [attempts seq existsb]. destruct (rmtree k) eqn:R.
    + cbn. repeat split; try lia.
      intros _. now rewrite Nat.add_0_r.
    + destruct (IH (S k)) as (D & T & T1 & Z & B & A). clear IH.
      destruct (attempts rmtree path (S k) left) as [done later].
      cbn [fst snd] in *. unfold tries, naps in *.
      cbn [List.filter List.length orb].
      assert (L : done = true ->
                  (1 <= List.length
                          (List.filter
                             (fun a => match a with Rmtree _ => true | Nap => false end)
                             later))%nat).
      { intros ->. destruct left as [|left]; [discriminate D | apply T1; lia]. }
      split; [exact D|].
      split; [lia|]. split; [lia|]. split; [|split].
      * rewrite Z. destruct done; [|reflexivity]. specialize (L eq_refl). lia.
      * intros [|j] Hj; [now rewrite Nat.add_0_r|].
        replace (k + S j)%nat with (S k + j)%nat by lia. apply B. lia.
      * intros Hd. specialize (L Hd). specialize (A Hd).
        match goal with
        | H : rmtree ?a = true |- rmtree ?b = true =>
            replace b with a by lia; exact H
        end.
Qed.

(** X1. [robust_rmtree] calls [shutil.rmtree] at least once and at most
    three times; every call before the last one raised, and it stops at
    the first call that returns; it returns [True] exactly when one of the
    three calls returns; and it sleeps half a second after each call that
    raised, so three times before it returns [False]. *)
Theorem robust_rmtree_tries (rmtree : nat -> bool) (path : str) :
  fst (robust_rmtree rmtree path) = rmtree 0%nat || rmtree 1%nat || rmtree 2%nat
  /\ (1 <= tries (snd (robust_rmtree rmtree path)) <= 3)%nat
  /\ (forall j,
        (j + 1 < tries (snd (robust_rmtree rmtree path)))%nat ->
        rmtree j = false)
  /\ (fst (robust_rmtree rmtree path) = true ->
      rmtree (tries (snd (robust_rmtree rmtree path)) - 1)%nat = true)
  /\ naps (snd (robust_rmtree rmtree path))
     = (if fst (robust_rmtree rmtree path)
        then tries (snd (robust_rmtree rmtree path)) - 1
        else 3)%nat.
Proof.
  unfold robust_rmtree.
  destruct (attempts_summary rmtree path 3 0) as (D & T & T1 & Z & B & A).
  split; [rewrite D; cbn; now rewrite orb_false_r, orb_assoc|].
  split; [lia|]. split; [exact B|]. split; [exact A | exact Z].
Qed.

End CleanupFacts.

(* ------------------------------------------------------------------ *)
(** ** The upload block over several runs *)

Module UploadFacts.

Import PyFacts Loader Shelf.

Lemma filter_none {A} (f : A -> bool) (l : list A) :
  (forall x, In x l -> f x = false) -> List.filter f l = [].
Proof.
  induction l as [|a l IH]; intros H; [reflexivity|].
  cbn [List.filter]. rewrite (H a (or_introl eq_refl)).
  apply IH. intros x Hx. apply H. now right.
Qed.

Lemma write_file_names (f : UploadedFile) (d : directory) (n : str) :
  In n (List.map fst (write_file f d))
  <-> n = name f \/ (n <> name f /\ In n (List.map fst d)).
Proof.
  unfold write_file. cbn [List.map fst In]. split.
  - intros [H|H]; [now left|]. right.
    apply in_map_iff in H as [[m b] [<- H]]. apply filter_In in H as [H E].
    cbn [fst] in *. apply negb_true_iff, str_eqb_neq in E.
    split; [assumption|]. apply in_map_iff. now exists (m, b).
  - intros [->|[Hn H]]; [now left|]. right.
    apply in_map_iff in H as [[m b] [<- H]]. cbn [fst] in *.
    apply in_map_iff. exists (m, b). split; [reflexivity|].
    apply filter_In. split; [assumption|]. cbn [fst].
    now apply negb_true_iff, str_eqb_neq.
Qed.

Lemma fold_write_names (files : list UploadedFile) (n : str) :
  forall d,
    In n (List.map fst (fold_left (fun d f => write_file f d) files d))
    <-> In n (List.map name files) \/ In n (List.map fst d).
Proof.
  induction files as [|f files IH]; intros d; cbn [fold_left List.map In].
  - tauto.
  - rewrite IH, write_file_names.
    destruct (list_eq_dec N.eq_dec n (name f)) as [E|E]; intuition congruence.
Qed.

Lemma write_all_names (files : list UploadedFile) (n : str) :
  In n (List.map fst (write_all files)) <-> In n (List.map name files).
Proof.
  unfold write_all. rewrite fold_write_names. cbn. tauto.
Qed.

Lemma write_file_NoDup (f : UploadedFile) (d : directory) :
  NoDup (List.map fst d) -> NoDup (List.map fst (write_file f d)).
Proof.
  intros H. unfold write_file. cbn [List.map fst]. constructor.
  - intros Hin. apply in_map_iff in Hin as [[m b] [E Hin]].
    apply filter_In in Hin as [_ Hne]. cbn [fst] in *.
    apply negb_true_iff, str_eqb_neq in Hne. congruence.
  - induction d as [|[m b] d IH]; [constructor|].
    cbn [List.map fst] in H. inversion H as [|? ? Hm Hd]; subst.
    cbn [List.filter fst]. destruct (negb (str_eqb m (name f))).
    + cbn [List.map fst]. constructor; [|now apply IH].
      intros Hin. apply Hm. apply in_map_iff in Hin as [e [E Hin]].
      apply filter_In in Hin as [Hin _]. apply in_map_iff. now exists e.
    + now apply IH.
Qed.

Lemma fold_write_NoDup (files : list UploadedFile) :
  forall d,
    NoDup (List.map fst d) ->
    NoDup (List.map fst (fold_left (fun d f => write_file f d) files d)).
Proof.
  induction files as [|f files IH]; intros d H; [exact H|].
  cbn [fold_left]. apply IH. now apply write_file_NoDup.
Qed.

Lemma dir_get_other (n m : str) (d : directory) :
  m <> n ->
  dir_get n (List.filter (fun e => negb (str_eqb (fst e) m)) d) = dir_get n d.
Proof.
  intros H. induction d as [|[k b] d IH]; [reflexivity|].
  cbn [List.filter fst dir_get]. destruct (str_eqb k m) eqn:E; cbn [negb].
  - apply str_eqb_eq in E. subst k.
    apply str_eqb_neq in H. now rewrite H.
  - cbn [dir_get]. now rewrite IH.
Qed.

Lemma fold_write_get (files : list UploadedFile) (n : str) :
  forall d,
    dir_get n (fold_left (fun d f => write_file f d) files d)
    = match last_named n files with
      | Some b => Some b
      | None => dir_get n d
      end.
Proof.
  induction files as [|f files IH]; intros d; [reflexivity|].
  cbn [fold_left last_named]. rewrite IH.
  destruct (last_named n files) as [b|]; [reflexivity|].
  unfold write_file. cbn [dir_get].
  destruct (str_eqb (name f) n) eqn:E; [reflexivity|].
  apply dir_get_other. now apply str_eqb_neq.
Qed.

(** X2. An upload in which no file has a name that ends in ".shp", its
    identity differing from the stored one, is not parsed: the one error
    "No .shp file found in upload" is shown and the session keeps its
    dataset and its stored identity. ([os.listdir] lists names of files
    of the directory.) *)
Theorem upload_without_shp (h : Host) (files : list UploadedFile) (s : Session) :
  files <> [] ->
  key_differs (key_of files) (upload_key s) = true ->
  (forall d n, In n (listdir h d) -> In n (List.map fst d)) ->
  Forall (fun f => endswith (name f) (lit ".shp") = false) files ->
  load h files s = (s, [Error (lit "No .shp file found in upload")])
  /\ parses (snd (load h files s)) = 0%nat.
Proof.
  intros Hne Hk Hl Hf.
  assert (E : load h files s = (s, [Error (lit "No .shp file found in upload")])).
  { unfold load. destruct files as [|f files]; [contradiction|].
    rewrite Hk. rewrite filter_none; [reflexivity|].
    intros n Hn. apply Hl, write_all_names, in_map_iff in Hn as [g [<- Hg]].
    now apply (proj1 (Forall_forall _ _) Hf). }
  now rewrite E.
Qed.

(** The session after a run and what the run showed. *)
Lemma load_session (h : Host) (files : list UploadedFile) (s : Session) :
  (forall n, ~ In (Success n) (snd (load h files s))) /\ fst (load h files s) = s
  \/ exists df,
       In (Success (nrows df)) (snd (load h files s))
       /\ fst (load h files s)
          = {| geo_df := Some df; upload_key := Some (key_of files) |}.
Proof.
  destruct (LoaderFacts.load_cases h files s)
    as [E|[_ [[p [df E]]|[[p [e E]]|E]]]]; rewrite E; cbn [fst snd].
  - left. split; [intros n []|reflexivity].
  - right. exists df. split; [right; now left | reflexivity].
  - left. split; [|reflexivity].
    intros n [H|[H|[]]]; discriminate.
  - left. split; [|reflexivity].
    intros n [H|[]]; discriminate.
Qed.

Lemma load_parses_once (h : Host) (files : list UploadedFile) (s : Session) :
  (parses (snd (load h files s)) <= 1)%nat.
Proof.
  destruct (LoaderFacts.load_cases h files s)
    as [E|[_ [[p [df E]]|[[p [e E]]|E]]]]; rewrite E; cbn; lia.
Qed.

(** X3. Over any sequence of runs of the script, each with its upload:
    a dataset that is loaded is never lost, whatever is uploaded later;
    a session that holds a stored identity holds a dataset; when no run
    shows the success message, the session after the runs is the session
    before them; and each run shows its notices and parses at most one
    file. *)
Theorem dataset_never_lost (h : Host) (uploads : list (list UploadedFile))
  (s : Session) :
  (geo_df s <> None -> geo_df (fst (reruns h uploads s)) <> None)
  /\ ((upload_key s <> None -> geo_df s <> None) ->
      upload_key (fst (reruns h uploads s)) <> None ->
      geo_df (fst (reruns h uploads s)) <> None)
  /\ ((forall shown n, In shown (snd (reruns h uploads s)) -> ~ In (Success n) shown) ->
      fst (reruns h uploads s) = s)
  /\ List.length (snd (reruns h uploads s)) = List.length uploads
  /\ Forall (fun shown => (parses shown <= 1)%nat) (snd (reruns h uploads s)).
Proof.
  revert s. induction uploads as [|u rest IH]; intros s.
  - cbn. repeat split; auto.
  - cbn [reruns]. pose proof (load_session h u s) as L.
    pose proof (load_parses_once h u s) as P.
    destruct (load h u s) as [s1 shown]. cbn [fst snd] in L, P.
    destruct (IH s1) as (G & K & N & Len & Pa).
    destruct (reruns h rest s1) as [s2 later]. cbn [fst snd] in *.
    split; [|split; [|split; [|split]]].
    + intros Hs. apply G.
      destruct L as [[_ ->]|[df [_ ->]]]; [assumption | discriminate].
    + intros Hi. apply K.
      destruct L as [[_ ->]|[df [_ ->]]]; [assumption | discriminate].
    + intros Hn.
      destruct L as [[_ E]|[df [Hin _]]].
      * subst s1. apply N. intros sh n Hsh. apply Hn. now right.
      * exfalso. apply (Hn shown (nrows df)); [now left | assumption].
    + cbn [List.length]. now rewrite Len.
    + now constructor.
Qed.

(** X4. The temporary directory after the uploaded files are written to
    it holds each name once; the names it holds are the names of the
    uploaded files; and under a name it holds the content of the last
    uploaded file of that name, an earlier file of the same name being
    overwritten. *)
Theorem last_upload_of_a_name_wins (files : list UploadedFile) :
  NoDup (List.map fst (write_all files))
  /\ (forall n, In n (List.map fst (write_all files)) <-> In n (List.map name files))
  /\ (forall n, dir_get n (write_all files) = last_named n files).
Proof.
  split; [apply fold_write_NoDup; constructor|].
  split; [apply write_all_names|].
  intros n. unfold write_all. rewrite fold_write_get.
  now destruct (last_named n files).
Qed.

Lemma endswith_suffix (s suffix : str) :
  endswith s suffix = true -> exists stem, s = stem ++ suffix.
Proof.
  unfold endswith. intros H. apply andb_true_iff in H as [_ H].
  apply str_eqb_eq in H.
  exists (firstn (List.length s - List.length suffix) s).
  set (n := (List.length s - List.length suffix)%nat) in *.
  rewrite <- H. symmetry. apply firstn_skipn.
Qed.

Lemma filter_first {A} (f : A -> bool) (l : list A) (x : A) (rest : list A) :
  List.filter f l = x :: rest ->
  exists before after,
    l = before ++ x :: after
    /\ f x = true
    /\ Forall (fun y => f y = false) before.
Proof.
  induction l as [|a l IH]; intros H; [discriminate|].
  cbn [List.filter] in H. destruct (f a) eqn:Fa.
  - injection H as -> _. exists [], l. now repeat split.
  - destruct (IH H) as (before & after & -> & Fx & Fb).
    exists (a :: before), after. repeat split; [assumption|].
    now constructor.
Qed.

(** X25. Whenever a run parses a file, the file is one of the uploaded
    files, its name ends in ".shp", and it is the first such name in the
    listing of the temporary directory: of several shapefiles uploaded
    together only that one is read, and it is read once. ([os.listdir]
    lists names of files of the directory.) *)
Theorem parsed_file_is_first_shp (h : Host) (files : list UploadedFile)
  (s : Session) (p : str) :
  (forall d n, In n (listdir h d) -> In n (List.map fst d)) ->
  In (Parsed p) (snd (load h files s)) ->
  exists shp stem before after,
    p = path_join (mkdtemp h) shp
    /\ shp = stem ++ lit ".shp"
    /\ In shp (List.map name files)
    /\ listdir h (write_all files) = before ++ shp :: after
    /\ Forall (fun n => endswith n (lit ".shp") = false) before
    /\ key_differs (key_of files) (upload_key s) = true
    /\ parses (snd (load h files s)) = 1%nat.
Proof.
  intros Hl. unfold load. destruct files as [|f files]; [intros []|].
  destruct (key_differs (key_of (f :: files)) (upload_key s)); [|intros []].
  destruct (List.filter _ _) as [|shp rest] eqn:Fl.
  { intros [H|[]]. discriminate. }
  destruct (filter_first _ _ _ _ Fl) as (before & after & Ld & Es & Fb).
  destruct (endswith_suffix _ _ Es) as [stem Est].
  assert (Hin : In shp (List.map name (f :: files))).
  { apply write_all_names, Hl. rewrite Ld. apply in_or_app. right. now left. }
  intros Hp. exists shp, stem, before, after.
  assert (Ep : p = path_join (mkdtemp h) shp).
  { destruct (read_file h (write_all (f :: files)) shp);
      cbn [snd] in Hp; destruct Hp as [Hp|[Hp|[]]]; congruence. }
  repeat (split; [assumption|]). split; [reflexivity|].
  now destruct (read_file h (write_all (f :: files)) shp).
Qed.

Lemma tuple_eqb_eq (a b : list (str * N)) : tuple_eqb a b = true <-> a = b.
Proof.
  split; [|intros ->; apply LoaderFacts.tuple_eqb_refl].
  revert b. induction a as [|[n z] a IH]; intros [|[m y] b] H;
    try discriminate; [reflexivity|].
  cbn [tuple_eqb] in H. unfold entry_eqb in H. cbn [fst snd] in H.
  apply andb_true_iff in H as [H Hab]. apply andb_true_iff in H as [Hn Hz].
  apply str_eqb_eq in Hn. apply N.eqb_eq in Hz. subst.
  now rewrite (IH b Hab).
Qed.

(** X26. What a run does with an upload is decided by its identity, the
    names and sizes of its files in their order: the run does nothing and
    shows nothing exactly when the identity is the stored one, so files
    of the same names and sizes but another content are not loaded again,
    while any other identity, the same files in another order among
    them, makes the run go through the upload and show what came of
    it. *)
Theorem upload_identity_decides (h : Host) (files : list UploadedFile)
  (s : Session) :
  files <> [] ->
  (upload_key s = Some (key_of files) <-> load h files s = (s, []))
  /\ (forall files',
        key_of files' = key_of files ->
        upload_key s = Some (key_of files) ->
        load h files' s = (s, []))
  /\ (upload_key s <> Some (key_of files) -> snd (load h files s) <> []).
Proof.
  intros Hne.
  assert (K : key_differs (key_of files) (upload_key s) = false
              <-> upload_key s = Some (key_of files)).
  { unfold key_differs. destruct (upload_key s) as [k|].
    - rewrite negb_false_iff, tuple_eqb_eq. split; congruence.
    - split; discriminate. }
  assert (L : load h files s = (s, []) ->
              key_differs (key_of files) (upload_key s) = false).
  { unfold load. destruct files as [|f files]; [contradiction|].
    destruct (key_differs (key_of (f :: files)) (upload_key s)); [|reflexivity].
    destruct (List.filter _ _) as [|shp rest]; [discriminate|].
    destruct (read_file h _ shp); discriminate. }
  split; [|split].
  - split; [apply LoaderFacts.load_same_key | intros E; now apply K, L].
  - intros files' Ek E. apply LoaderFacts.load_same_key. now rewrite Ek.
  - intros Hk Hs. apply Hk, K, L.
    destruct (LoaderFacts.load_cases h files s)
      as [E|[_ [[p [df E]]|[[p [e E]]|E]]]]; rewrite E in Hs; try discriminate.
    exact E.
Qed.

End UploadFacts.

(* ------------------------------------------------------------------ *)
(** ** The values offered by the second select box *)

Module WidgetFacts.

Import PyFacts FrameFacts FilterFacts Widgets.

Lemma scalar_eqb_refl (v : scalar) : scalar_eqb v v = true.
Proof.
  destruct v; cbn [scalar_eqb].
  - apply Z.eqb_refl.
  - now apply Qeq_bool_iff.
  - apply str_eqb_refl.
Qed.

Lemma unique_from_sound (l : list scalar) :
  forall seen v,
    In v (unique_from seen l) ->
    In v l /\ existsb (scalar_eqb v) seen = false.
Proof.
  induction l as [|a l IH]; intros seen v H; [contradiction|].
  cbn [unique_from] in H. destruct (existsb (scalar_eqb a) seen) eqn:E.
  - destruct (IH _ _ H) as [Hin Hs]. split; [now right | assumption].
  - destruct H as [<-|H]; [split; [now left | assumption]|].
    destruct (IH _ _ H) as [Hin Hs]. split; [now right|].
    cbn [existsb] in Hs. now apply orb_false_iff in Hs.
Qed.

Lemma unique_from_complete (l : list scalar) :
  forall seen v,
    In v l ->
    existsb (scalar_eqb v) seen = true
    \/ exists u, In u (unique_from seen l) /\ scalar_eqb v u = true.
Proof.
  induction l as [|a l IH]; intros seen v H; [contradiction|].
  cbn [unique_from]. destruct H as [->|H].
  - destruct (existsb (scalar_eqb v) seen) eqn:E; [now left|].
    right. exists v. split; [now left | apply scalar_eqb_refl].
  - destruct (existsb (scalar_eqb a) seen) eqn:E; [now apply IH|].
    destruct (IH (a :: seen) v H) as [Hs|[u [Hu Eu]]].
    + cbn [existsb] in Hs. apply orb_true_iff in Hs as [Hs|Hs]; [|now left].
      right. exists a. split; [now left | assumption].
    + right. exists u. split; [now right | assumption].
Qed.

Lemma unique_from_differ (l : list scalar) :
  forall seen,
    all_differ (unique_from seen l)
    /\ Forall (fun b => existsb (scalar_eqb b) seen = false) (unique_from seen l).
Proof.
  induction l as [|a l IH]; intros seen; [now split; constructor|].
  cbn [unique_from]. destruct (existsb (scalar_eqb a) seen) eqn:E; [apply IH|].
  destruct (IH (a :: seen)) as [D F]. cbn [all_differ]. split; [split|].
  - eapply Forall_impl; [|exact F]. cbn beta. intros b Hb.
    cbn [existsb] in Hb. now apply orb_false_iff in Hb.
  - exact D.
  - constructor; [exact E|].
    eapply Forall_impl; [|exact F]. cbn beta. intros b Hb.
    cbn [existsb] in Hb. now apply orb_false_iff in Hb.
Qed.

(** The values line 114 lists, once the column is there. *)
Lemma distinct_vals_unfold (df : DataFrame) (col : str) (j : nat) :
  index_of col (columns df) = Some j ->
  distinct_vals df col
  = Some (unique_from [] (dropna (List.map (at_col j) (rows df)))).
Proof.
  intros H. unfold distinct_vals, series. now rewrite H.
Qed.

Lemma column_value (df : DataFrame) (j : nat) (v : scalar) :
  In v (dropna (List.map (at_col j) (rows df)))
  <-> exists r, In r (rows df) /\ at_col j r = Some v.
Proof.
  rewrite dropna_In, in_map_iff. split; intros [r [A B]]; exists r; now split.
Qed.

(** X5. The values offered for a column of the dataset are the values of
    its cells that are not missing, each offered once: every value
    offered is the value of a cell of the column; every cell that is not
    missing equals ([==]) a value offered; no two values offered are
    equal; and no value is offered (the warning of line 118) exactly when
    every cell of the column is missing. *)
Theorem distinct_vals_lists_the_values (df : DataFrame) (col : str) (j : nat) :
  index_of col (columns df) = Some j ->
  exists vals,
    distinct_vals df col = Some vals
    /\ (forall v, In v vals -> exists r, In r (rows df) /\ at_col j r = Some v)
    /\ (forall r x,
          In r (rows df) -> at_col j r = Some x ->
          exists v, In v vals /\ scalar_eqb x v = true)
    /\ all_differ vals
    /\ (vals = [] <-> forall r, In r (rows df) -> at_col j r = None).
Proof.
  intros H. eexists. split; [exact (distinct_vals_unfold df col j H)|].
  assert (S : forall v,
            In v (unique_from [] (dropna (List.map (at_col j) (rows df)))) ->
            exists r, In r (rows df) /\ at_col j r = Some v).
  { intros v Hv. apply unique_from_sound in Hv as [Hv _]. now apply column_value. }
  assert (C : forall r x,
            In r (rows df) -> at_col j r = Some x ->
            exists v,
              In v (unique_from [] (dropna (List.map (at_col j) (rows df))))
              /\ scalar_eqb x v = true).
  { intros r x Hr Hx.
    destruct (unique_from_complete (dropna (List.map (at_col j) (rows df))) [] x)
      as [Hs|Hu]; [|discriminate Hs|exact Hu].
    apply column_value. now exists r. }
  split; [exact S|]. split; [exact C|].
  split; [apply unique_from_differ|]. split.
  - intros E r Hr. destruct (at_col j r) as [x|] eqn:Hx; [|reflexivity].
    destruct (C r x Hr Hx) as [v [Hv _]]. rewrite E in Hv. contradiction.
  - intros N.
    destruct (unique_from [] (dropna (List.map (at_col j) (rows df))))
      as [|v vals]; [reflexivity|].
    destruct (S v (or_introl eq_refl)) as [r [Hr Hx]].
    rewrite (N r Hr) in Hx. discriminate.
Qed.

(** X6. A value offered by the second select box matches a row or more
    of the dataset: it occurs in the column, and the rows line 147 keeps
    for it form a table of one row or more on the columns of the
    dataset. *)
Theorem listed_value_matches_a_row (df : DataFrame) (col : str)
  (vals : list scalar) (v : scalar) :
  distinct_vals df col = Some vals ->
  In v vals ->
  occurs df col v = true
  /\ exists filtered,
       select_rows df col v = Some filtered
       /\ (1 <= nrows filtered)%nat
       /\ columns filtered = columns df
       /\ (forall r, In r (rows filtered) -> In r (rows df)).
Proof.
  intros Hd Hv. unfold distinct_vals, occurs, select_rows, series in *.
  destruct (index_of col (columns df)) as [j|]; [|discriminate].
  cbn [option_map] in *. injection Hd as <-.
  apply unique_from_sound in Hv as [Hv _].
  apply column_value in Hv as [r [Hr Hx]]. split.
  - apply existsb_exists. exists (Some v). split.
    + apply in_map_iff. now exists r.
    + apply scalar_eqb_refl.
  - eexists. split; [reflexivity|]. unfold nrows. cbn [rows columns].
    split; [|split; [reflexivity|]].
    + assert (Hin : In r (List.filter (fun r => cell_is v (at_col j r)) (rows df))).
      { apply filter_In. split; [assumption|]. rewrite Hx. apply scalar_eqb_refl. }
      destruct (List.filter _ (rows df)); [contradiction | cbn; lia].
    + intros x Hin. now apply filter_In in Hin.
Qed.

End WidgetFacts.

(* ------------------------------------------------------------------ *)
(** ** The names of a run as paths *)

Module PathFacts.

Import Names NamesFacts.

Section WithUnicode.

Variable uni : N -> bool.

(** A character that is kept is no separator of a path, no NUL and no
    dot. *)
Lemma keeps_plain (c : N) :
  keeps uni c = true -> c <> 47%N /\ c <> 92%N /\ c <> 0%N /\ c <> 46%N.
Proof.
  intros H. repeat split; intros ->; discriminate H.
Qed.

Lemma safe_val_kept (v : str) : safe_val uni (safe_val uni v) = safe_val uni v.
Proof.
  induction v as [|c v IH]; [reflexivity|].
  rewrite safe_val_cons. destruct (keeps uni c) eqn:K; [|exact IH].
  now rewrite safe_val_cons, K, IH.
Qed.

(** X7. Whatever the filter value, the name of the output directory and
    the name of the combined file hold no slash, no backslash and no NUL,
    and the name of the directory holds no dot: the directory is one path
    component, never "." or "..", made in the working directory. *)
Theorem output_names_hold_no_separator (v : str) :
  Forall (fun c => c <> 47%N /\ c <> 92%N /\ c <> 0%N /\ c <> 46%N)
    (OUTPUT_DIR uni v)
  /\ Forall (fun c => c <> 47%N /\ c <> 92%N /\ c <> 0%N) (combined_name uni v)
  /\ OUTPUT_DIR uni v <> []
  /\ combined_path uni v = OUTPUT_DIR uni v ++ [47%N] ++ combined_name uni v.
Proof.
  assert (S : Forall (fun c => c <> 47%N /\ c <> 92%N /\ c <> 0%N /\ c <> 46%N)
                (safe_val uni v)).
  { eapply Forall_impl; [|apply (safe_val_allowed uni v)].
    intros c. apply keeps_plain. }
  unfold OUTPUT_DIR, combined_name, combined_path, path_join.
  split; [|split; [|split; [discriminate | reflexivity]]].
  - apply Forall_app. split; [|apply Forall_app; split; [exact S|]];
      cbv [lit List.map list_ascii_of_string N_of_ascii N.add N.mul];
      repeat constructor; discriminate.
  - apply Forall_app. split; [|apply Forall_app; split];
      [| eapply Forall_impl; [|exact S]; cbn beta; tauto |];
      cbv [lit List.map list_ascii_of_string N_of_ascii N.add N.mul];
      repeat constructor; discriminate.
Qed.

(** X8. Sanitising is idempotent: a value that has been sanitised is left
    as it is, so it names the same output directory; its result is never
    longer than the value; and two filter values with the same sanitised
    form share their output directory, their log and their combined
    file. *)
Theorem safe_val_idempotent (v : str) :
  safe_val uni (safe_val uni v) = safe_val uni v
  /\ OUTPUT_DIR uni (safe_val uni v) = OUTPUT_DIR uni v
  /\ (List.length (safe_val uni v) <= List.length v)%nat
  /\ (forall v',
        safe_val uni v' = safe_val uni v ->
        OUTPUT_DIR uni v' = OUTPUT_DIR uni v
        /\ LOG_FILE uni v' = LOG_FILE uni v
        /\ combined_path uni v' = combined_path uni v).
Proof.
  split; [apply safe_val_kept|].
  split; [unfold OUTPUT_DIR; now rewrite safe_val_kept|].
  split; [apply filter_length_le|].
  intros v' E. unfold combined_path, LOG_FILE, combined_name, OUTPUT_DIR.
  now rewrite E.
Qed.

(** X24. The files of a run do not overwrite one another by their
    kind: the file of a reach is never the combined file nor the log, the
    combined file is never the log, and the files of two reaches have the
    same path only when the two identifiers are the same text. *)
Theorem run_files_do_not_collide (v : str) :
  (forall r1 r2, reach_path uni v r1 = reach_path uni v r2 -> r1 = r2)
  /\ (forall r, reach_path uni v r <> combined_path uni v)
  /\ (forall r, reach_path uni v r <> LOG_FILE uni v)
  /\ combined_path uni v <> LOG_FILE uni v.
Proof.
  unfold reach_path, combined_path, LOG_FILE, combined_name, path_join.
  repeat split.
  - intros r1 r2 H. do 3 apply app_inv_head in H. now apply app_inv_tail in H.
  - intros r H. do 2 apply app_inv_head in H. discriminate H.
  - intros r H. do 2 apply app_inv_head in H. discriminate H.
  - intros H. do 2 apply app_inv_head in H. discriminate H.
Qed.

End WithUnicode.

End PathFacts.

(* ------------------------------------------------------------------ *)
(** ** The combined table and the clean-up of the times *)

Module TableFacts.

Import PyFacts FrameFacts.

Lemma fresh_labels_new (l : list str) :
  forall seen,
    distinct (fresh_labels seen l) = true
    /\ (forall c, In c (fresh_labels seen l) -> In c l /\ ~ In c seen).
Proof.
  induction l as [|d l IH]; intros seen; [split; [reflexivity | intros c []]|].
  cbn [fresh_labels]. destruct (mem d seen) eqn:M.
  - destruct (IH seen) as [D N]. split; [exact D|].
    intros c Hc. destruct (N c Hc). split; [now right | assumption].
  - destruct (IH (d :: seen)) as [D N]. split.
    + cbn [distinct]. rewrite D, andb_true_r. apply negb_true_iff, mem_not_In.
      intros Hd. destruct (N d Hd) as [_ Hn]. apply Hn. now left.
    + intros c [<-|Hc].
      * split; [now left | now apply mem_not_In].
      * destruct (N c Hc) as [Hl Hn]. split; [now right|].
        intros Hs. apply Hn. now right.
Qed.

(** X9. The combined table is well formed whatever tables it is made
    of and whatever dtype its columns take: no label twice, and one cell
    per column in every row; and its columns are the columns of the
    tables, a column being there exactly when one of the tables has
    it. *)
Theorem concat_is_well_formed (common : list cell -> cell -> cell)
  (dfs : list DataFrame) :
  well_formed (concat common dfs) = true
  /\ (forall c,
        In c (columns (concat common dfs))
        <-> exists df, In df dfs /\ In c (columns df)).
Proof.
  destruct (fresh_labels_new (flat_map columns dfs) []) as [D N]. split.
  - unfold well_formed, concat. cbn [columns rows].
    apply andb_true_iff. split; [exact D|].
    apply forallb_forall. intros r Hr. apply Nat.eqb_eq.
    unfold astype_common in Hr. apply in_map_iff in Hr as [r0 [<- _]].
    now rewrite length_map, length_seq.
  - intros c. split.
    + intros Hc. destruct (N c Hc) as [Hin _].
      apply in_flat_map in Hin as [df [Hdf Hin]]. now exists df.
    + intros [df [Hdf Hin]]. now apply union_columns_In with df.
Qed.

Lemma at_col_set_col_other (j k : nat) (c : cell) (r : row) :
  k <> j -> at_col k (set_col j c r) = at_col k r.
Proof.
  unfold at_col. revert j k.
  induction r as [|x r IH]; intros [|j] [|k] H; cbn; try reflexivity;
    try contradiction.
  - apply IH. congruence.
Qed.

Lemma at_col_set_col_same (j : nat) (c : cell) (r : row) :
  (j < List.length r)%nat -> at_col j (set_col j c r) = c.
Proof.
  unfold at_col. revert j.
  induction r as [|x r IH]; intros [|j] H; cbn in *; try lia; try reflexivity.
  apply IH. lia.
Qed.

Lemma assign_column_In (j : nat) (rs : list row) :
  forall values r,
    In r (assign_column j rs values) ->
    exists r0 c, In r0 rs /\ r = set_col j c r0.
Proof.
  induction rs as [|r0 rs IH]; intros values r H; [contradiction|].
  cbn [assign_column] in H. destruct H as [<-|H].
  - exists r0, (hd None values). split; [now left | reflexivity].
  - destruct (IH _ _ H) as (r1 & c & Hin & E).
    exists r1, c. split; [now right | assumption].
Qed.

Lemma assign_column_length (j : nat) (rs : list row) :
  forall values, List.length (assign_column j rs values) = List.length rs.
Proof.
  induction rs as [|r rs IH]; intros values; [reflexivity|].
  cbn [assign_column List.length]. now rewrite IH.
Qed.

(** The rows kept by lines 194-195 when a value comes back for every
    row. *)
Lemma assign_column_kept (j : nat) (rs : list row) :
  forall values,
    List.length values = List.length rs ->
    Forall (fun r => (j < List.length r)%nat) rs ->
    List.filter (fun r => notna (at_col j r)) (assign_column j rs values)
    = List.map (fun p => set_col j (snd p) (fst p))
        (List.filter (fun p => notna (snd p)) (combine rs values)).
Proof.
  induction rs as [|r rs IH]; intros values L F; [reflexivity|].
  destruct values as [|c values]; [discriminate|].
  inversion F as [|? ? Hr Hrs]; subst.
  cbn [assign_column hd tl combine List.filter snd].
  rewrite (at_col_set_col_same j c r Hr).
  rewrite IH by (cbn in L; auto with arith).
  now destruct (notna c).
Qed.

(** X10. The clean-up of lines 193-195 leaves a table without a
    [time_str] column as it is. On a table with one it keeps the
    columns, adds no row, and keeps only rows whose [time_str] is not
    missing, each of them a row of the table with nothing but its
    [time_str] cell changed. When the table is well formed and
    [pd.to_datetime] gives a value per row, the rows kept are the rows
    whose time was parsed, in their order, each with its parsed time in
    place. *)
Theorem parse_time_str_cleans (conv : list cell -> list cell) (df : DataFrame) :
  (index_of (lit "time_str") (columns df) = None -> parse_time_str conv df = df)
  /\ columns (parse_time_str conv df) = columns df
  /\ (nrows (parse_time_str conv df) <= nrows df)%nat
  /\ (forall j,
        index_of (lit "time_str") (columns df) = Some j ->
        Forall (fun r =>
                  notna (at_col j r) = true
                  /\ exists r0,
                       In r0 (rows df)
                       /\ List.length r = List.length r0
                       /\ forall k, k <> j -> at_col k r = at_col k r0)
          (rows (parse_time_str conv df)))
  /\ (forall j,
        index_of (lit "time_str") (columns df) = Some j ->
        well_formed df = true ->
        List.length (conv (List.map (at_col j) (rows df))) = nrows df ->
        rows (parse_time_str conv df)
        = List.map (fun p => set_col j (snd p) (fst p))
            (List.filter (fun p => notna (snd p))
               (combine (rows df) (conv (List.map (at_col j) (rows df)))))).
Proof.
  unfold parse_time_str, nrows.
  destruct (index_of (lit "time_str") (columns df)) as [j|] eqn:Hj.
  - cbn [columns rows]. split; [discriminate|]. split; [reflexivity|].
    split; [|split].
    + etransitivity; [apply filter_length_le|].
      now rewrite assign_column_length.
    + intros j' E. injection E as <-. apply Forall_forall. intros r Hr.
      apply filter_In in Hr as [Hr Hn]. split; [exact Hn|].
      apply assign_column_In in Hr as (r0 & c & Hin & ->).
      exists r0. split; [assumption|].
      split; [apply FetchFacts.well_formed_set_col|].
      intros k Hk. now apply at_col_set_col_other.
    + intros j' E W L. injection E as <-.
      apply assign_column_kept; [exact L|].
      apply Forall_forall. intros r Hr.
      rewrite (well_formed_rows df r W Hr).
      clear - Hj. revert j Hj.
      induction (columns df) as [|c cols IH]; intros j Hj; [discriminate|].
      cbn [index_of] in Hj. destruct (str_eqb c (lit "time_str")).
      * injection Hj as <-. cbn. lia.
      * destruct (index_of (lit "time_str") cols) as [k|]; [|discriminate].
        injection Hj as <-. cbn [List.length]. apply -> Nat.succ_lt_mono.
        now apply IH.
  - split; [reflexivity|]. split; [reflexivity|]. split; [lia|].
    split; intros j; discriminate.
Qed.

End TableFacts.

(* ------------------------------------------------------------------ *)
(** ** What the loop keeps in step *)

Module LedgerFacts.

Import PyFacts FrameFacts Fetch Ledger FetchFacts.

Lemma requests_sent_app (a b : list event) :
  requests_sent (a ++ b) = (requests_sent a + requests_sent b)%nat.
Proof. unfold requests_sent. now rewrite filter_app, length_app. Qed.

Lemma retries_sent_app (a b : list event) :
  retries_sent (a ++ b) = (retries_sent a + retries_sent b)%nat.
Proof. unfold retries_sent. now rewrite filter_app, length_app. Qed.

Lemma gets_app (a b : list event) : gets (a ++ b) = (gets a + gets b)%nat.
Proof. unfold gets. now rewrite filter_app, length_app. Qed.

Lemma bad_requests_app (a b : list event) :
  bad_requests (a ++ b) = (bad_requests a + bad_requests b)%nat.
Proof. unfold bad_requests. now rewrite filter_app, length_app. Qed.

Lemma shown_errors_app (a b : list event) :
  shown_errors (a ++ b) = (shown_errors a + shown_errors b)%nat.
Proof. unfold shown_errors. now rewrite filter_app, length_app. Qed.

Lemma progress_shown_app (a b : list event) :
  progress_shown (a ++ b) = progress_shown a ++ progress_shown b.
Proof.
  induction a as [|e a IH]; [reflexivity|].
  destruct e; cbn [app progress_shown]; now rewrite IH.
Qed.

(** A request is a first try or a retry. *)
Lemma requests_split (tr : list event) :
  requests_sent tr = (gets tr + retries_sent tr)%nat.
Proof.
  unfold requests_sent, gets, retries_sent.
  induction tr as [|e tr IH]; [reflexivity|].
  destruct e; cbn [List.filter List.length]; lia.
Qed.

Lemma ledger_refl (s : RunState) : ledger 0 [] s s.
Proof.
  exists [], [], [], []. cbn. rewrite !app_nil_r.
  repeat split; auto with arith.
Qed.

Lemma ledger_trans (g1 g2 : nat) (ps1 ps2 : list (nat * nat))
  (s s1 s2 : RunState) :
  ledger g1 ps1 s s1 -> ledger g2 ps2 s1 s2 ->
  ledger (g1 + g2) (ps1 ++ ps2) s s2.
Proof.
  intros (n1 & a1 & t1 & w1 & T1 & C1 & E1 & R1 & L1 & A1 & U1 & F1 & M1 & G1 & P1)
         (n2 & a2 & t2 & w2 & T2 & C2 & E2 & R2 & L2 & A2 & U2 & F2 & M2 & G2 & P2).
  exists (n1 ++ n2), (a1 ++ a2), (t1 ++ t2), (w2 ++ w1).
  rewrite requests_sent_app, shown_errors_app, retries_sent_app, gets_app,
    bad_requests_app, progress_shown_app, length_app, map_app, rev_app_distr.
  split; [now rewrite T2, T1, app_assoc|].
  split; [lia|]. split; [lia|]. split; [lia|].
  split; [now rewrite L2, L1, app_assoc|].
  split; [lia|].
  split; [now rewrite U2, U1, app_assoc|].
  split; [now rewrite F2, F1, app_assoc|].
  split; [now rewrite M1, M2|].
  split; [lia | now rewrite P1, P2].
Qed.

(** Proves [ledger g ps s s'] for a state [s'] given field by field. *)
Ltac count_events :=
  cbn [app];
  cbv beta iota delta
    [requests_sent retries_sent gets bad_requests shown_errors
     List.filter List.length];
  cbn [progress_shown].

(** The statements of lines 175-180, unfolded on a given state. *)
Ltac run_head :=
  cbv beta iota zeta delta
    [try_body retry_on_429 bind ret raise emit incr_errors
     http_get int_retry_after sleep refusal is_Exception];
  cbn [fst snd results errors calls log_file files trace].

Ltac ledger_here :=
  unfold ledger; do 4 eexists;
  cbn [results errors calls log_file files trace];
  split; [first [rewrite <- ?app_assoc; reflexivity | symmetry; apply app_nil_r]|];
  split; [count_events; lia|];
  split; [count_events; lia|];
  split; [count_events; lia|];
  split; [first [reflexivity | symmetry; apply app_nil_r]|];
  split; [count_events; reflexivity|];
  split; [first [reflexivity | symmetry; apply app_nil_r]|];
  split; [first [exact (eq_refl ([] ++ _)) | exact (eq_refl ([_] ++ _))]|];
  split; [reflexivity|];
  split; count_events; reflexivity.

Section Run.

Variable w : World.
Variable inp : Inputs.

Lemma handled_ledger (rid : str) (resp : Response) (s : RunState) :
  exists s',
    try_except (handle_response w inp rid resp) (handler rid) s = (inr tt, s')
    /\ ledger 0 [] s s'.
Proof.
  run_all.
  all: eexists; (split; [reflexivity|]); ledger_here.
Qed.

Lemma attempt_ledger (rid : str) (s : RunState) :
  exists s',
    try_except (try_body w inp rid) (handler rid) s = (inr tt, s')
    /\ ledger 1 [] s s'.
Proof.
  unfold try_body. rewrite try_except_bind. unfold http_get at 1.
  destruct (requests_get w (calls s) (url inp rid)) as [msg|resp].
  { unfold handler. run_head. eexists. split; [reflexivity|]. ledger_here. }
  rewrite try_except_bind. run_head.
  repeat (split_test; run_head).
  all: lazymatch goal with
       | |- context [try_except (handle_response _ _ _ ?a) _ ?sx] =>
           destruct (handled_ledger rid a sx) as (s' & E & L);
           rewrite E; exists s'; split; [reflexivity|];
           apply (ledger_trans 1 0 [] [] s sx s'); [ledger_here | exact L]
       | _ =>
           unfold handler; run_head; eexists; split; [reflexivity|]; ledger_here
       end.
Qed.

(** One turn, whatever the delay: also when the sleep of line 205
    raises, the state it leaves is in step. *)
Lemma iteration_ledger (i : nat) (rid : str) (s : RunState) :
  exists out s',
    iteration w inp i rid s = (out, s')
    /\ ledger 1 [((i + 1)%nat, total inp)] s s'.
Proof.
  unfold iteration. cbv beta iota delta [bind emit]. unfold try_finally.
  match goal with
  | |- context [try_except _ _ ?sx] =>
      destruct (attempt_ledger rid sx) as (s1 & E & L);
      assert (L0 : ledger 1 [((i + 1)%nat, total inp)] s s1)
        by (apply (ledger_trans 0 1 [((i + 1)%nat, total inp)] [] s sx s1);
            [ledger_here | exact L])
  end.
  rewrite E. unfold sleep.
  destruct (refusal w (calls s1) (throttle_delay inp)) as [e|];
    cbv beta iota delta [raise emit]; do 2 eexists; (split; [reflexivity|]);
    try exact L0.
  apply (ledger_trans 1 0 [((i + 1)%nat, total inp)] [] s s1 _ L0).
  ledger_here.
Qed.

(** The loop, the delay being one the slider gives. *)
Lemma fetch_loop_ledger (ids : list str) :
  slider_range (throttle_delay inp) ->
  forall (i : nat) (s : RunState),
  exists s',
    fetch_loop w inp i ids s = (inr tt, s')
    /\ ledger (List.length ids)
         (List.map (fun k => (k, total inp)) (seq (i + 1) (List.length ids)))
         s s'.
Proof.
  intros Hd. induction ids as [|rid rest IH]; intros i s.
  - exists s. split; [reflexivity | apply ledger_refl].
  - destruct (iteration_summary w inp i rid s Hd) as (s1 & mid & E & _).
    destruct (iteration_ledger i rid s) as (out & s1' & E' & L).
    rewrite E in E'. injection E' as <- <-.
    destruct (IH (S i) s1) as (s2 & E2 & L2).
    exists s2. rewrite (fetch_loop_cons w inp i rid rest s s1 E).
    split; [exact E2|].
    cbn [List.length seq List.map].
    replace (S i + 1)%nat with (S (i + 1)) in L2 by lia.
    exact (ledger_trans 1 _ [((i + 1)%nat, total inp)] _ s s1 s2 L L2).
Qed.

End Run.

Lemma first_tries_calm (mid rest : list event) :
  Forall calm mid -> first_tries (mid ++ rest) = first_tries rest.
Proof.
  induction 1 as [|e mid He _ IH]; [reflexivity|].
  destruct e; cbn [app first_tries]; try exact IH. contradiction.
Qed.

Lemma turns_first_tries (inp : Inputs) (d : Q) (i : nat) (ids : list str)
  (tr : list event) :
  turns inp d i ids tr -> first_tries tr = List.map (url inp) ids.
Proof.
  induction 1 as [i|i rid rest mid later F _ IH]; [reflexivity|].
  cbn [first_tries List.map]. f_equal.
  rewrite first_tries_calm by assumption. exact IH.
Qed.

Lemma bad_requests_shown (tr : list event) :
  (bad_requests tr <= shown_errors tr)%nat.
Proof.
  unfold bad_requests, shown_errors.
  induction tr as [|e tr IH]; [reflexivity|].
  destruct e; cbn [List.filter List.length]; lia.
Qed.

(** The loop, with what [fetch_loop_summary] and [fetch_loop_ledger] tell
    of the same final state. *)
Lemma fetch_loop_account (w : World) (inp : Inputs) (ids : list str)
  (i : nat) (s : RunState) :
  slider_range (throttle_delay inp) ->
  exists s' tr,
    fetch_loop w inp i ids s = (inr tt, s')
    /\ trace s' = trace s ++ tr
    /\ turns inp (throttle_delay inp) i ids tr
    /\ calls s' = (calls s + requests_sent tr)%nat
    /\ errors s' = (errors s + shown_errors tr)%nat
    /\ (retries_sent tr <= gets tr)%nat
    /\ gets tr = List.length ids
    /\ progress_shown tr
       = List.map (fun k => (k, total inp)) (seq (i + 1) (List.length ids))
    /\ (List.length (results s') + errors s'
        = List.length (results s) + errors s + List.length ids)%nat
    /\ exists added tables written,
         log_file s' = log_file s ++ added
         /\ List.length added = bad_requests tr
         /\ results s' = results s ++ tables
         /\ files s' = written ++ files s
         /\ List.map snd written = rev tables
         /\ Forall (fun f : str * DataFrame =>
                      exists rid,
                        fst f
                        = Names.reach_path (unicode_alnum w) (filter_value inp) rid)
              written.
Proof.
  intros Hd.
  destruct (fetch_loop_summary w inp ids Hd i s)
    as (s' & tr & E & N & T & Tu & written & Wr & Fw).
  destruct (fetch_loop_ledger w inp ids Hd i s)
    as (s2 & E2 & new & added & tables & written2
        & T2 & C & Er & R & L & A & U & F & M & G & P).
  rewrite E in E2. injection E2 as <-.
  assert (new = tr) by (rewrite T in T2; now apply app_inv_head in T2).
  assert (written2 = written) by (rewrite Wr in F; now apply app_inv_tail in F).
  subst new written2.
  exists s', tr. repeat (split; [assumption|]).
  exists added, tables, written. now repeat split.
Qed.

(** X11. With a delay that the slider can give, the loop sends the
    request of line 175 once for each identifier of the list, in the
    order of the list and with the URL of the identifier, an identifier
    that comes twice being asked for twice; at most one retry goes with
    each of them, so that a loop over [n] reaches calls [requests.get]
    [n] times or more and [2 n] times or less; and every call is in the
    trace. *)
Theorem requests_per_reach (w : World) (inp : Inputs) (i : nat)
  (ids : list str) (s : RunState) :
  slider_range (throttle_delay inp) ->
  exists s' tr,
    fetch_loop w inp i ids s = (inr tt, s')
    /\ trace s' = trace s ++ tr
    /\ first_tries tr = List.map (url inp) ids
    /\ (retries_sent tr <= List.length ids)%nat
    /\ requests_sent tr = (List.length ids + retries_sent tr)%nat
    /\ calls s' = (calls s + requests_sent tr)%nat
    /\ (List.length ids <= calls s' - calls s <= 2 * List.length ids)%nat.
Proof.
  intros Hd.
  destruct (fetch_loop_account w inp ids i s Hd)
    as (s' & tr & E & T & Tu & C & _ & R & G & _).
  exists s', tr. pose proof (requests_split tr) as Sp.
  split; [exact E|]. split; [exact T|].
  split; [now apply turns_first_tries with (throttle_delay inp) i|].
  repeat split; lia.
Qed.

(** X12. With a delay that the slider can give, the error counter of the
    loop goes up by the number of messages shown for a reach without a
    table (the warnings of lines 182 and 199 and the error of line 202):
    no error is counted without its message and no such message is shown
    without being counted. *)
Theorem every_error_is_shown (w : World) (inp : Inputs) (i : nat)
  (ids : list str) (s : RunState) :
  slider_range (throttle_delay inp) ->
  exists s' tr,
    fetch_loop w inp i ids s = (inr tt, s')
    /\ trace s' = trace s ++ tr
    /\ errors s' = (errors s + shown_errors tr)%nat
    /\ (shown_errors tr <= List.length ids)%nat.
Proof.
  intros Hd.
  destruct (fetch_loop_account w inp ids i s Hd)
    as (s' & tr & E & T & _ & _ & Er & _ & _ & _ & N & _ & tables & _
        & _ & _ & U & _).
  exists s', tr. repeat (split; [assumption|]).
  rewrite U, length_app in N. lia.
Qed.

(** X13. With a delay that the slider can give, the loop only appends to
    the log: what the log held before, from this run or an earlier one,
    is kept in place, and the lines added are as many as the bad-request
    warnings shown, so no more than the errors counted. *)
Theorem log_only_grows (w : World) (inp : Inputs) (i : nat)
  (ids : list str) (s : RunState) :
  slider_range (throttle_delay inp) ->
  exists s' tr added,
    fetch_loop w inp i ids s = (inr tt, s')
    /\ trace s' = trace s ++ tr
    /\ log_file s' = log_file s ++ added
    /\ List.length added = bad_requests tr
    /\ (List.length added <= errors s' - errors s)%nat.
Proof.
  intros Hd.
  destruct (fetch_loop_account w inp ids i s Hd)
    as (s' & tr & E & T & _ & _ & Er & _ & _ & _ & _ & added & _ & _
        & L & A & _).
  exists s', tr, added. repeat (split; [assumption|]).
  pose proof (bad_requests_shown tr). lia.
Qed.

Lemma file_at_app (path : str) (a b : list (str * DataFrame)) :
  file_at path (a ++ b)
  = match file_at path a with
    | Some df => Some df
    | None => file_at path b
    end.
Proof.
  induction a as [|[p df] a IH]; [reflexivity|].
  cbn [app file_at]. now destruct (str_eqb p path).
Qed.

(** X14. With a delay that the slider can give, the tables the loop
    appends to [results] are the tables it writes, one write per table
    appended and in the same order, each to a reach file of the output
    directory, and nothing else is written by [to_csv]. After the loop a
    file holds the table the loop wrote to its path last, and a file the
    loop wrote nothing to holds what it held before. *)
Theorem tables_are_written (w : World) (inp : Inputs) (i : nat)
  (ids : list str) (s : RunState) :
  slider_range (throttle_delay inp) ->
  exists s' tables written,
    fetch_loop w inp i ids s = (inr tt, s')
    /\ results s' = results s ++ tables
    /\ files s' = written ++ files s
    /\ List.map snd written = rev tables
    /\ Forall (fun f : str * DataFrame =>
                 exists rid,
                   fst f
                   = Names.reach_path (unicode_alnum w) (filter_value inp) rid)
         written
    /\ (forall path,
          file_at path (files s')
          = match file_at path written with
            | Some df => Some df
            | None => file_at path (files s)
            end).
Proof.
  intros Hd.
  destruct (fetch_loop_account w inp ids i s Hd)
    as (s' & tr & E & _ & _ & _ & _ & _ & _ & _ & _ & added & tables & written
        & _ & _ & U & F & M & Fw).
  exists s', tables, written. repeat (split; [assumption|]).
  intros path. rewrite F. apply file_at_app.
Qed.

Lemma last_of_steps (n m : nat) :
  last (List.map (fun k => (k, m)) (seq 1 (S n))) (0%nat, 0%nat) = (S n, m).
Proof.
  rewrite seq_S, map_app. cbn [List.map]. now rewrite last_last.
Qed.

(** X15. With a delay that the slider can give, the progress bar of a
    loop over the [n] reaches of a run goes through [1/n], [2/n], ...,
    [n/n] in this order: every value it is set to is above 0 and at most
    1, and the last one is 1. *)
Theorem progress_runs_to_the_end (w : World) (inp : Inputs) (s : RunState) :
  slider_range (throttle_delay inp) ->
  exists s' tr,
    fetch_loop w inp 0 (reach_ids inp) s = (inr tt, s')
    /\ trace s' = trace s ++ tr
    /\ progress_shown tr
       = List.map (fun k => (k, List.length (reach_ids inp)))
           (seq 1 (List.length (reach_ids inp)))
    /\ Forall (fun p => (1 <= fst p <= snd p)%nat) (progress_shown tr)
    /\ (reach_ids inp <> [] ->
        last (progress_shown tr) (0%nat, 0%nat)
        = (List.length (reach_ids inp), List.length (reach_ids inp))).
Proof.
  intros Hd.
  destruct (fetch_loop_account w inp (reach_ids inp) 0 s Hd)
    as (s' & tr & E & T & _ & _ & _ & _ & _ & P & _).
  exists s', tr. split; [exact E|]. split; [exact T|].
  unfold total in P. cbn [Nat.add] in P. rewrite P.
  split; [reflexivity|]. split.
  - apply Forall_forall. intros p Hp.
    apply in_map_iff in Hp as [k [<- Hk]]. apply in_seq in Hk. cbn [fst snd]. lia.
  - intros Hne. destruct (reach_ids inp) as [|rid rest]; [contradiction|].
    cbn [List.length].
    exact (last_of_steps (List.length rest) (S (List.length rest))).
Qed.

End LedgerFacts.

(* ------------------------------------------------------------------ *)
(** ** The end of a run, and turns that go wrong *)

Module OutcomeFacts.

Import PyFacts FrameFacts Fetch Ledger Answers FetchFacts LedgerFacts.



(** The state a turn ends in, read from the state line 181 left. *)
Ltac read_turn :=
  unfold turn_ends, turn_begins in *;
  cbv beta iota delta [bind emit snd] in *;
  cbn [results errors calls log_file files trace] in *.

(** X17. In a turn where the response tested at line 181 has an error
    status other than 400 (401 to 599, a second 429 among them),
    [raise_for_status] raises and the exception is caught: the error is
    shown with the status and counted, no table is added, no file is
    written, and, unlike a 400, nothing is written to the log; the
    delay is slept and the loop goes on. *)
Theorem http_error_counted_not_logged (w : World) (inp : Inputs) (i : nat)
  (rid : str) (rest : list str) (s : RunState) (resp : Response) :
  slider_range (throttle_delay inp) ->
  answered w inp rid (calls s) resp ->
  (400 < status_code resp < 600)%Z ->
  exists s' before,
    iteration w inp i rid s = (inr tt, s')
    /\ trace s'
       = before ++ [Failed rid (HTTPError (status_code resp));
                    Sleep (throttle_delay inp)]
    /\ errors s' = S (errors s)
    /\ results s' = results s
    /\ log_file s' = log_file s
    /\ files s' = files s
    /\ fetch_loop w inp i (rid :: rest) s = fetch_loop w inp (S i) rest s'.
Proof.
  intros Hd A Hs.
  destruct (attempt_answered w inp rid (turn_begins inp i rid s) resp A)
    as (sx & E & Rr & Re & Rl & Rf & _).
  rewrite handle_http_error in E by lia.
  apply (iteration_attempt w inp Hd) in E.
  eexists. exists (trace sx). split; [exact E|].
  split; [|split; [|split; [|split; [|split]]]];
    try (now apply fetch_loop_cons); read_turn;
    rewrite <- ?app_assoc; cbn [app]; congruence.
Qed.

Lemma handle_empty_payload (w : World) (inp : Inputs) (rid : str)
  (resp : Response) (sx : RunState) :
  empty_payload resp ->
  try_except (handle_response w inp rid resp) (handler rid) sx
  = (inr tt,
     {| results := results sx; errors := S (errors sx); calls := calls sx;
        log_file := log_file sx; files := files sx;
        trace := trace sx ++ [NoData rid] |}).
Proof.
  intros P.
  assert (S4 : (status_code resp =? 400)%Z = false
               /\ ((400 <=? status_code resp) && (status_code resp <? 600))%Z
                  = false).
  { assert (Q : passes_status resp) by (destruct P; assumption).
    destruct Q as [Q4 Qr]. split; [now apply Z.eqb_neq|].
    destruct (Z.leb_spec 400 (status_code resp)),
      (Z.ltb_spec (status_code resp) 600); try reflexivity. lia. }
  destruct S4 as [S4 Sr].
  unfold handle_response, raise_for_status. rewrite S4, Sr.
  cbv beta iota delta [bind ret try_except]. unfold resp_json.
  destruct P as [resp items _ Hj Hr|resp items res _ Hj Hr Hc
                 |resp items res j _ Hj Hr Hc Ht];
    rewrite Hj; cbv beta iota delta [dict_get ret]; rewrite Hr;
    cbv beta iota; cbn [lookup]; rewrite ?Hc; cbv beta iota; rewrite ?Ht;
    reflexivity.
Qed.

(** X18. In a turn where the response tested at line 181 passes the
    status tests and its JSON body gives no text (no "results" key, no
    "csv" key under it, or a "csv" that is empty or otherwise false),
    nothing is parsed: the warning "No data for reach" is shown, the
    reach is counted as an error, no table is added, no file is written
    and the log is not written to. *)
Theorem empty_payload_is_an_error (w : World) (inp : Inputs) (i : nat)
  (rid : str) (rest : list str) (s : RunState) (resp : Response) :
  slider_range (throttle_delay inp) ->
  answered w inp rid (calls s) resp ->
  empty_payload resp ->
  exists s' before,
    iteration w inp i rid s = (inr tt, s')
    /\ trace s' = before ++ [NoData rid; Sleep (throttle_delay inp)]
    /\ errors s' = S (errors s)
    /\ results s' = results s
    /\ log_file s' = log_file s
    /\ files s' = files s
    /\ fetch_loop w inp i (rid :: rest) s = fetch_loop w inp (S i) rest s'.
Proof.
  intros Hd A P.
  destruct (attempt_answered w inp rid (turn_begins inp i rid s) resp A)
    as (sx & E & Rr & Re & Rl & Rf & _).
  rewrite (handle_empty_payload w inp rid resp sx P) in E.
  apply (iteration_attempt w inp Hd) in E.
  eexists. exists (trace sx). split; [exact E|].
  split; [|split; [|split; [|split; [|split]]]];
    try (now apply fetch_loop_cons); read_turn;
    rewrite <- ?app_assoc; cbn [app]; congruence.
Qed.

(** What [time.sleep] raises is an [Exception]. *)
Lemma refusal_is_Exception (w : World) (k : nat) (d : Q) (e : exn) :
  refusal w k d = Some e -> is_Exception e = true.
Proof.
  unfold refusal.
  destruct ((timeout_ns d <? int64_min)%Z || (int64_max <? timeout_ns d)%Z);
    [intros E; now injection E as <-|].
  destruct (negb (Qle_bool 0 d)); [intros E; now injection E as <-|].
  destruct (int64_max <? monotonic w k + timeout_ns d)%Z;
    [intros E; now injection E as <-|discriminate].
Qed.

(** [time.sleep] of a whole number of seconds. *)
Lemma refusal_of_seconds (w : World) (k : nat) (n : Z) :
  refusal w k (inject_Z n)
  = if ((n <? - sleep_max) || (sleep_max <? n))%Z then Some OverflowError
    else if (n <? 0)%Z then Some ValueError
    else if (int64_max <? monotonic w k + n * 1000000000)%Z
         then Some (OSError einval)
         else None.
Proof.
  unfold refusal, timeout_ns, round_away.
  change (inject_Z n * inject_Z 1000000000) with (inject_Z (n * 1000000000)).
  rewrite Qceiling_Z, Qfloor_Z.
  replace (if Qle_bool 0 (inject_Z (n * 1000000000))
           then (n * 1000000000)%Z else (n * 1000000000)%Z)
    with (n * 1000000000)%Z by now destruct (Qle_bool 0 _).
  replace (negb (Qle_bool 0 (inject_Z n))) with (n <? 0)%Z.
  2:{ change 0 with (inject_Z 0). unfold Qle_bool, inject_Z. cbn [Qnum Qden].
      rewrite Z.mul_1_r. cbn [Z.mul].
      destruct (Z.ltb_spec n 0), (Z.leb_spec 0 n); try reflexivity; lia. }
  unfold int64_min, int64_max, sleep_max. cbn [Z.opp].
  destruct (Z.ltb_spec (n * 1000000000) (-9223372036854775808)),
    (Z.ltb_spec 9223372036854775807 (n * 1000000000)),
    (Z.ltb_spec n (- 9223372036)), (Z.ltb_spec 9223372036 n);
    cbn [orb]; try reflexivity; lia.
Qed.

Lemma attempt_wait_refused (w : World) (inp : Inputs) (rid : str)
  (s : RunState) (first : Response) (n : Z) (e : exn) :
  requests_get w (calls s) (url inp rid) = inr first ->
  status_code first = 429%Z ->
  retry_seconds (retry_after first) = Some n ->
  refusal w (S (calls s)) (inject_Z n) = Some e ->
  try_except (try_body w inp rid) (handler rid) s
  = (inr tt,
     {| results := results s; errors := S (errors s); calls := S (calls s);
        log_file := log_file s; files := files s;
        trace := ((trace s ++ [Get (url inp rid)]) ++ [RateLimited n])
                 ++ [Failed rid e] |}).
Proof.
  intros H H429 Hn Hr. unfold try_body.
  rewrite try_except_bind. unfold http_get at 1. rewrite H.
  rewrite try_except_bind. unfold retry_on_429.
  apply Z.eqb_eq in H429. rewrite H429.
  unfold int_retry_after. rewrite Hn.
  cbv beta iota delta [bind ret emit]. unfold sleep.
  cbn [calls]. rewrite Hr. cbv beta iota delta [raise].
  now rewrite (refusal_is_Exception w _ _ e Hr).
Qed.

(** X19. In a turn whose first response is a 429 with a wait that
    [int] reads and [time.sleep] does not take: the message "Rate
    limited, retrying in ..." is shown with that number, the sleep
    raises, the exception is caught, and no retry is sent; the reach is
    counted as an error after its one request. The exception is
    [OverflowError] for a number beyond 9223372036 either way, whose
    count of nanoseconds does not fit; [ValueError] for another number
    below 0; and otherwise [OSError], for a wait beyond 2^32 seconds
    whose deadline, the reading of the monotonic clock added, passes
    the 64-bit range (as for 9223372036 itself from the first second
    after the start of the machine). *)
Theorem refused_wait_is_not_retried (w : World) (inp : Inputs) (i : nat)
  (rid : str) (s : RunState) (first : Response) (n : Z) (e : exn) :
  slider_range (throttle_delay inp) ->
  requests_get w (calls s) (url inp rid) = inr first ->
  status_code first = 429%Z ->
  retry_seconds (retry_after first) = Some n ->
  refusal w (S (calls s)) (inject_Z n) = Some e ->
  (exists s',
     iteration w inp i rid s = (inr tt, s')
     /\ trace s'
        = trace s
          ++ [Progress (i + 1) (total inp); Fetching rid (i + 1) (total inp);
              Get (url inp rid); RateLimited n; Failed rid e;
              Sleep (throttle_delay inp)]
     /\ calls s' = S (calls s)
     /\ errors s' = S (errors s)
     /\ results s' = results s)
  /\ ((n < - sleep_max \/ sleep_max < n)%Z -> e = OverflowError)
  /\ ((- sleep_max <= n < 0)%Z -> e = ValueError)
  /\ ((0 <= n <= sleep_max)%Z ->
      e = OSError einval
      /\ (sleep_sure < n)%Z
      /\ (int64_max < monotonic w (S (calls s)) + n * 1000000000)%Z).
Proof.
  intros Hd H H429 Hn Hr. split.
  - pose proof (attempt_wait_refused w inp rid (turn_begins inp i rid s) first n e
                  H H429 Hn Hr) as E.
    apply (iteration_attempt w inp Hd) in E. eexists. split; [exact E|].
    read_turn. rewrite <- !app_assoc. now repeat split.
  - assert (Hs : forall m, (0 <= m <= sleep_sure)%Z ->
                           refusal w (S (calls s)) (inject_Z m) = None).
    { intros m [H0 H1]. apply refusal_sure.
      - change 0 with (inject_Z 0). now rewrite <- Zle_Qle.
      - now rewrite <- Zle_Qle. }
    rewrite refusal_of_seconds in Hr. unfold sleep_max in *. cbn [Z.opp] in *.
    destruct (Z.ltb_spec n (- 9223372036)), (Z.ltb_spec 9223372036 n),
      (Z.ltb_spec n 0); cbn [orb] in Hr;
      try (injection Hr as <-; repeat split; intros; try reflexivity; lia).
    destruct (Z.ltb_spec int64_max (monotonic w (S (calls s)) + n * 1000000000));
      [|discriminate].
    injection Hr as <-. split; [lia|]. split; [lia|]. intros _.
    split; [reflexivity|]. split; [|assumption].
    destruct (Z.le_gt_cases n sleep_sure) as [Hle|Hgt]; [|lia].
    assert (Hn0 : (0 <= n <= sleep_sure)%Z) by lia.
    specialize (Hs n Hn0).
    rewrite refusal_of_seconds in Hs. unfold sleep_max in Hs. cbn [Z.opp] in Hs.
    destruct (Z.ltb_spec n (- 9223372036)), (Z.ltb_spec 9223372036 n),
      (Z.ltb_spec n 0); cbn [orb] in Hs; try lia; try discriminate.
    destruct (Z.ltb_spec int64_max (monotonic w (S (calls s)) + n * 1000000000));
      [discriminate | lia].
Qed.

(** X20. In a turn whose request of line 175 raises (a timeout, a
    connection that fails), the exception is caught: the error is shown
    with its message and counted, nothing else is sent for the reach, no
    table is added, nothing is written to a file or to the log, the delay
    is slept and the loop goes on with the next reach. *)
Theorem failed_request_is_one_error (w : World) (inp : Inputs) (i : nat)
  (rid : str) (rest : list str) (s : RunState) (msg : str) :
  slider_range (throttle_delay inp) ->
  requests_get w (calls s) (url inp rid) = inl msg ->
  exists s',
    iteration w inp i rid s = (inr tt, s')
    /\ trace s'
       = trace s
         ++ [Progress (i + 1) (total inp); Fetching rid (i + 1) (total inp);
             Get (url inp rid); Failed rid (RequestException msg);
             Sleep (throttle_delay inp)]
    /\ calls s' = S (calls s)
    /\ errors s' = S (errors s)
    /\ results s' = results s
    /\ log_file s' = log_file s
    /\ files s' = files s
    /\ fetch_loop w inp i (rid :: rest) s = fetch_loop w inp (S i) rest s'.
Proof.
  intros Hd H.
  assert (E : try_except (try_body w inp rid) (handler rid)
                (turn_begins inp i rid s)
              = (inr tt,
                 {| results := results s; errors := S (errors s);
                    calls := S (calls s); log_file := log_file s;
                    files := files s;
                    trace := ((trace (turn_begins inp i rid s))
                              ++ [Get (url inp rid)])
                             ++ [Failed rid (RequestException msg)] |})).
  { unfold try_body. rewrite try_except_bind. unfold http_get at 1.
    change (calls (turn_begins inp i rid s)) with (calls s). rewrite H.
    reflexivity. }
  apply (iteration_attempt w inp Hd) in E. eexists. split; [exact E|].
  split; [|split; [|split; [|split; [|split; [|split]]]]];
    try (now apply fetch_loop_cons); read_turn;
    rewrite <- ?app_assoc; reflexivity.
Qed.

Lemma int_digits_stops (c : N) (t : str) :
  In c t -> isdigit c = false -> c <> 95%N ->
  forall acc after, int_digits acc after t = None.
Proof.
  intros Hin Hd Hu. induction t as [|a t IH]; intros acc after; [contradiction|].
  cbn [int_digits]. destruct Hin as [->|Hin].
  - rewrite Hd. apply N.eqb_neq in Hu. now rewrite Hu.
  - destruct (isdigit a); [now apply IH|].
    destruct ((a =? 95)%N && after); [now apply IH | reflexivity].
Qed.

Lemma lstrip_keeps (c : N) (s : str) :
  In c s -> isspace c = false -> In c (lstrip s).
Proof.
  intros Hin Hs. induction s as [|a s IH]; [contradiction|].
  cbn [lstrip]. destruct Hin as [->|Hin]; [rewrite Hs; now left|].
  destruct (isspace a); [now apply IH | now right].
Qed.

Lemma strip_keeps (c : N) (s : str) :
  In c s -> isspace c = false -> In c (strip s).
Proof.
  intros Hin Hs. unfold strip. apply -> in_rev.
  apply lstrip_keeps; [|assumption]. apply -> in_rev.
  now apply lstrip_keeps.
Qed.

(** [int] after the white space is stripped: a sign, then the digits. *)
Lemma py_int_signs (s : str) :
  py_int s
  = if (max_str_digits <? N.of_nat (List.length (List.filter isdigit s)))%N
    then None
    else
      match strip s with
      | [] => None
      | a :: t =>
          if (a =? 43)%N then int_digits 0 false t
          else if (a =? 45)%N then option_map Z.opp (int_digits 0 false t)
          else int_digits 0 false (a :: t)
      end.
Proof.
  unfold py_int.
  destruct (max_str_digits <? N.of_nat (List.length (List.filter isdigit s)))%N;
    [reflexivity|].
  destruct (strip s) as [|a t]; [reflexivity|].
  destruct (N.eqb_spec a 43) as [->|H43]; [reflexivity|].
  destruct (N.eqb_spec a 45) as [->|H45]; [reflexivity|].
  destruct a as [|p]; [reflexivity|].
  do 7 (try (destruct p as [p|p|]; try reflexivity; try contradiction)).
Qed.

(** A text with a character that is of no numeral is not read by
    [int]. *)
Lemma py_int_text (c : N) (s : str) :
  In c s -> numeral_char c = false -> py_int s = None.
Proof.
  intros Hin Hc. unfold numeral_char in Hc.
  apply orb_false_iff in Hc as [Hc H95]. apply N.eqb_neq in H95.
  apply orb_false_iff in Hc as [Hc H45]. apply N.eqb_neq in H45.
  apply orb_false_iff in Hc as [Hc H43]. apply N.eqb_neq in H43.
  apply orb_false_iff in Hc as [Hc Hd].
  pose proof (strip_keeps c s Hin Hc) as Hs.
  rewrite py_int_signs.
  destruct (max_str_digits <? N.of_nat (List.length (List.filter isdigit s)))%N;
    [reflexivity|].
  destruct (strip s) as [|a t]; [contradiction|].
  destruct (N.eqb_spec a 43) as [->|E43].
  { destruct Hs as [Hs|Hs]; [congruence|]. now apply int_digits_stops with c. }
  destruct (N.eqb_spec a 45) as [->|E45].
  { destruct Hs as [Hs|Hs]; [congruence|].
    now rewrite (int_digits_stops c t Hs). }
  now apply int_digits_stops with c.
Qed.

(** X21. A [Retry-After] header, Latin-1 text as the HTTP client
    gives it, that holds a character of no numeral (a letter, a comma, a
    colon, a dot: a date, as HTTP allows, or a number with decimals) is
    not read: in a turn whose first response is a 429
    with such a header [int] raises, no wait is shown or slept, no retry
    is sent, and the reach is counted as an error after its one
    request. *)
Theorem retry_after_text_is_not_read (w : World) (inp : Inputs) (i : nat)
  (rid : str) (s : RunState) (first : Response) (header : str) (c : N) :
  slider_range (throttle_delay inp) ->
  requests_get w (calls s) (url inp rid) = inr first ->
  status_code first = 429%Z ->
  retry_after first = Some header ->
  latin1 header ->
  In c header ->
  numeral_char c = false ->
  exists s',
    iteration w inp i rid s = (inr tt, s')
    /\ trace s'
       = trace s
         ++ [Progress (i + 1) (total inp); Fetching rid (i + 1) (total inp);
             Get (url inp rid); Failed rid ValueError;
             Sleep (throttle_delay inp)]
    /\ calls s' = S (calls s)
    /\ errors s' = S (errors s)
    /\ results s' = results s.
Proof.
  intros Hd H H429 Hh _ Hin Hc.
  assert (Hn : retry_seconds (retry_after first) = None).
  { rewrite Hh. cbn [retry_seconds]. now apply py_int_text with c. }
  pose proof (attempt_unreadable_wait w inp rid (turn_begins inp i rid s) first
                H H429 Hn) as E.
  apply (iteration_attempt w inp Hd) in E. eexists. split; [exact E|].
  read_turn. rewrite <- !app_assoc. now repeat split.
Qed.

End OutcomeFacts.

(* ------------------------------------------------------------------ *)
(** ** From the button to the loop *)

Module ClickFacts.

Import PyFacts FrameFacts Fetch Ledger FetchFacts LedgerFacts.




(** X22. When the value chosen in the second select box is a number, an
    integer or a float, a click on the button never gets a request sent
    or a file written. Either nothing is done (the button is not
    pressed, the number is 0, which counts as no value, or no field is
    selected); or the filter raises [KeyError] for want of a [reach_id]
    column; or no identifier is found and the script stops on its
    warning; or the number of reaches is shown and line 154, which goes
    through the characters of the value, raises. *)
Theorem number_value_never_fetches (float_str : Q -> str) (w : World)
  (pressed : bool) (pg : Widgets.Page) (s0 : RunState) (v : scalar) :
  Widgets.filter_value pg = Some v ->
  (forall t, v <> SStr t) ->
  match Widgets.Process_Data float_str w pressed pg s0 with
  | Widgets.NotEntered =>
      pressed = false \/ Widgets.scalar_truthy v = false
      \/ Widgets.selected_fields pg = []
  | Widgets.Crashed shown e =>
      requests_sent shown = 0%nat
      /\ match e with
         | Widgets.KeyError =>
             shown = []
             /\ Frame.reach_ids float_str (Widgets.df_geo pg)
                  (Widgets.filter_column pg) v = None
         | Widgets.NotIterable =>
             exists ids,
               Frame.reach_ids float_str (Widgets.df_geo pg)
                 (Widgets.filter_column pg) v = Some ids
               /\ ids <> []
               /\ shown = [Processing (List.length ids)]
         end
  | Widgets.Entered (out, s') =>
      out = inl StopException
      /\ Frame.reach_ids float_str (Widgets.df_geo pg)
           (Widgets.filter_column pg) v = Some []
      /\ trace s' = trace s0 ++ [NoReachIds]
      /\ calls s' = calls s0
      /\ files s' = files s0
      /\ results s' = results s0
  end.
Proof.
  intros Hv Hn. unfold Widgets.Process_Data. rewrite Hv.
  destruct pressed; cbn [andb]; [|now left].
  destruct (Widgets.scalar_truthy v); cbn [andb]; [|right; now left].
  destruct (Widgets.selected_fields pg) as [|f fs]; [right; now right|].
  destruct (Frame.reach_ids float_str (Widgets.df_geo pg)
              (Widgets.filter_column pg) v) as [[|rid ids]|].
  - unfold process. cbn. now repeat split.
  - destruct v as [z|q|t]; [| |now contradiction (Hn t)].
    + split; [reflexivity|]. eexists. split; [reflexivity|].
      split; [discriminate | reflexivity].
    + split; [reflexivity|]. eexists. split; [reflexivity|].
      split; [discriminate | reflexivity].
  - now repeat split.
Qed.


End ClickFacts.

(* ------------------------------------------------------------------ *)
(** ** The properties above on the small inputs *)

Module SampleFacts.

Import Loader Fetch Ledger.

Lemma upload_without_shp_witness :
  load Examples.accepting_host Samples.side_files Examples.loaded_session
  = (Examples.loaded_session, [Error (lit "No .shp file found in upload")])
  /\ parses (snd (load Examples.accepting_host Samples.side_files
                    Examples.loaded_session)) = 0%nat.
Proof.
  apply UploadFacts.upload_without_shp.
  - discriminate.
  - reflexivity.
  - intros d n H. exact H.
  - repeat constructor.
Defined.

Lemma parsed_file_is_first_shp_witness :
  exists shp stem before after,
    lit "/tmp/sword_temp_x/rivers.shp"
    = path_join (mkdtemp Examples.accepting_host) shp
    /\ shp = stem ++ lit ".shp"
    /\ In shp (List.map name Examples.bundle)
    /\ listdir Examples.accepting_host (write_all Examples.bundle)
       = before ++ shp :: after
    /\ Forall (fun n => endswith n (lit ".shp") = false) before
    /\ key_differs (key_of Examples.bundle) (upload_key Examples.loaded_session)
       = true
    /\ parses (snd (load Examples.accepting_host Examples.bundle
                      Examples.loaded_session)) = 1%nat.
Proof.
  apply UploadFacts.parsed_file_is_first_shp.
  - intros d n H. exact H.
  - left. reflexivity.
Defined.

Lemma upload_identity_decides_witness :
  upload_key Examples.loaded_session <> Some (key_of Examples.bundle)
  /\ snd (load Examples.rejecting_host Examples.bundle Examples.loaded_session)
     <> [].
Proof.
  assert (H : upload_key Examples.loaded_session <> Some (key_of Examples.bundle))
    by discriminate.
  split; [exact H|].
  exact (proj2 (proj2 (UploadFacts.upload_identity_decides
                         Examples.rejecting_host Examples.bundle
                         Examples.loaded_session ltac:(discriminate))) H).
Defined.

Lemma distinct_vals_lists_the_values_witness :
  exists vals,
    Widgets.distinct_vals Examples.rivers_dataset (lit "river_name") = Some vals
    /\ Widgets.all_differ vals
    /\ vals <> [].
Proof.
  destruct (WidgetFacts.distinct_vals_lists_the_values Examples.rivers_dataset
              (lit "river_name") 1 eq_refl)
    as (vals & E & _ & C & D & _).
  exists vals. split; [exact E|]. split; [exact D|].
  destruct (C [Some (SInt 11); Some (SStr (lit "Congo"))] (SStr (lit "Congo")))
    as [v [Hv _]]; [now left | reflexivity |].
  intros ->. contradiction.
Defined.

Lemma listed_value_matches_a_row_witness :
  occurs Examples.rivers_dataset (lit "river_name") (SStr (lit "Niger")) = true.
Proof.
  exact (proj1 (WidgetFacts.listed_value_matches_a_row Examples.rivers_dataset
                  (lit "river_name")
                  [SStr (lit "Congo"); SStr (lit "Niger")] (SStr (lit "Niger"))
                  eq_refl (or_intror (or_introl eq_refl)))).
Defined.

Lemma requests_per_reach_witness :
  exists s',
    fetch_loop Examples.mixed_world Examples.seven_reaches 0
      (reach_ids Examples.seven_reaches) (start [] [])
    = (inr tt, s')
    /\ (7 <= calls s' <= 14)%nat.
Proof.
  destruct (LedgerFacts.requests_per_reach Examples.mixed_world
              Examples.seven_reaches 0 (reach_ids Examples.seven_reaches)
              (start [] []) FetchFacts.half_second_of_slider)
    as (s' & tr & E & _ & _ & _ & _ & _ & B).
  exists s'. split; [exact E|]. cbn in B. lia.
Defined.

Lemma every_error_is_shown_witness :
  exists s' tr,
    fetch_loop Examples.mixed_world Examples.seven_reaches 0
      (reach_ids Examples.seven_reaches) (start [] [])
    = (inr tt, s')
    /\ trace s' = tr
    /\ errors s' = shown_errors tr.
Proof.
  destruct (LedgerFacts.every_error_is_shown Examples.mixed_world
              Examples.seven_reaches 0 (reach_ids Examples.seven_reaches)
              (start [] []) FetchFacts.half_second_of_slider)
    as (s' & tr & E & T & Er & _).
  exists s', tr. split; [exact E|]. split; [exact T | exact Er].
Defined.

Lemma log_only_grows_witness :
  exists s' added,
    fetch_loop Examples.mixed_world Examples.seven_reaches 0
      (reach_ids Examples.seven_reaches) (start [lit "an old line"] [])
    = (inr tt, s')
    /\ log_file s' = lit "an old line" :: added.
Proof.
  destruct (LedgerFacts.log_only_grows Examples.mixed_world
              Examples.seven_reaches 0 (reach_ids Examples.seven_reaches)
              (start [lit "an old line"] []) FetchFacts.half_second_of_slider)
    as (s' & tr & added & E & _ & L & _).
  exists s', added. split; [exact E | exact L].
Defined.

Lemma tables_are_written_witness :
  exists s' tables written,
    fetch_loop Examples.mixed_world Examples.seven_reaches 0
      (reach_ids Examples.seven_reaches) (start [] [])
    = (inr tt, s')
    /\ results s' = tables
    /\ files s' = written ++ []
    /\ List.map snd written = rev tables.
Proof.
  destruct (LedgerFacts.tables_are_written Examples.mixed_world
              Examples.seven_reaches 0 (reach_ids Examples.seven_reaches)
              (start [] []) FetchFacts.half_second_of_slider)
    as (s' & tables & written & E & U & F & M & _).
  exists s', tables, written. repeat split; assumption.
Defined.

Lemma progress_runs_to_the_end_witness :
  exists s' tr,
    fetch_loop Examples.mixed_world Examples.seven_reaches 0
      (reach_ids Examples.seven_reaches) (start [] [])
    = (inr tt, s')
    /\ last (progress_shown tr) (0%nat, 0%nat) = (7%nat, 7%nat).
Proof.
  destruct (LedgerFacts.progress_runs_to_the_end Examples.mixed_world
              Examples.seven_reaches (start [] [])
              FetchFacts.half_second_of_slider)
    as (s' & tr & E & _ & _ & _ & L).
  exists s', tr. split; [exact E|]. apply L. discriminate.
Defined.


Lemma http_error_counted_not_logged_witness :
  exists s',
    iteration Samples.server_error_world Examples.one_reach 0 (lit "11")
      (start [] [])
    = (inr tt, s')
    /\ errors s' = 1%nat
    /\ log_file s' = [].
Proof.
  destruct (OutcomeFacts.http_error_counted_not_logged Samples.server_error_world
              Examples.one_reach 0 (lit "11") [] (start [] [])
              Examples.server_error_response FetchFacts.half_second_of_slider)
    as (s' & before & E & _ & Er & _ & L & _).
  - apply answered_first; [reflexivity | discriminate].
  - cbn. lia.
  - exists s'. split; [exact E|]. split; [exact Er | exact L].
Defined.

Lemma empty_payload_is_an_error_witness :
  exists s',
    iteration Samples.empty_world Examples.one_reach 0 (lit "11") (start [] [])
    = (inr tt, s')
    /\ errors s' = 1%nat
    /\ results s' = [].
Proof.
  destruct (OutcomeFacts.empty_payload_is_an_error Samples.empty_world
              Examples.one_reach 0 (lit "11") [] (start [] [])
              (Examples.ok_response "") FetchFacts.half_second_of_slider)
    as (s' & before & E & _ & Er & R & _).
  - apply answered_first; [reflexivity | discriminate].
  - eapply Answers.false_csv; try reflexivity.
    split; [discriminate | cbn; lia].
  - exists s'. split; [exact E|]. split; [exact Er | exact R].
Defined.

Lemma refused_wait_is_not_retried_witness :
  exists s',
    iteration Samples.negative_wait_world Examples.one_reach 0 (lit "11")
      (start [] [])
    = (inr tt, s')
    /\ calls s' = 1%nat
    /\ errors s' = 1%nat.
Proof.
  destruct (OutcomeFacts.refused_wait_is_not_retried Samples.negative_wait_world
              Examples.one_reach 0 (lit "11") (start [] [])
              (Examples.limited_response (Some (lit "-5"))) (-5)%Z ValueError
              FetchFacts.half_second_of_slider eq_refl eq_refl eq_refl eq_refl)
    as ((s' & E & _ & C & Er & _) & _).
  exists s'. split; [exact E|]. split; [exact C | exact Er].
Defined.

Lemma failed_request_is_one_error_witness :
  exists s',
    iteration Samples.timeout_world Examples.one_reach 0 (lit "11") (start [] [])
    = (inr tt, s')
    /\ calls s' = 1%nat
    /\ errors s' = 1%nat.
Proof.
  destruct (OutcomeFacts.failed_request_is_one_error Samples.timeout_world
              Examples.one_reach 0 (lit "11") [] (start [] [])
              (lit "Read timed out.") FetchFacts.half_second_of_slider eq_refl)
    as (s' & E & _ & C & Er & _).
  exists s'. split; [exact E|]. split; [exact C | exact Er].
Defined.

Lemma retry_after_text_is_not_read_witness :
  exists s',
    iteration Samples.dated_wait_world Examples.one_reach 0 (lit "11")
      (start [] [])
    = (inr tt, s')
    /\ calls s' = 1%nat
    /\ errors s' = 1%nat.
Proof.
  destruct (OutcomeFacts.retry_after_text_is_not_read Samples.dated_wait_world
              Examples.one_reach 0 (lit "11") (start [] [])
              (Examples.limited_response
                 (Some (lit "Wed, 21 Oct 2015 07:28:00 GMT")))
              (lit "Wed, 21 Oct 2015 07:28:00 GMT") 87%N
              FetchFacts.half_second_of_slider eq_refl eq_refl eq_refl
              ltac:(repeat (constructor; [reflexivity|]); constructor)
              (or_introl eq_refl) eq_refl)
    as (s' & E & _ & C & Er & _).
  exists s'. split; [exact E|]. split; [exact C | exact Er].
Defined.

Lemma number_value_never_fetches_witness :
  Widgets.Process_Data Examples.no_floats Examples.served_world true
    Samples.numeric_page (start [] [])
  = Widgets.Crashed [Processing 1] Widgets.NotIterable
  /\ requests_sent [Processing 1] = 0%nat.
Proof.
  split; [reflexivity|].
  exact (proj1 (ClickFacts.number_value_never_fetches Examples.no_floats
                  Examples.served_world true Samples.numeric_page (start [] [])
                  (SInt 11) eq_refl ltac:(discriminate))).
Defined.


End SampleFacts.
